(** * Zen auto-inactive tabs: the background eviction engine

    A shallow embedding of the background script of the extension
    (the second script of [src/popup/popup.js]): the activity map
    [tabLastActive], the exclusion policy [shouldExclude], the periodic scan
    [checkAndDiscardInactiveTabs], the manual path [forceDiscardInactiveTabs]
    and the cold start [initializeTabTracking].

    Modelling conventions.
    - JavaScript numbers that the script handles (timestamps from
      [Date.now()], seconds from the settings, counters) are integers held
      in doubles.  They are embedded as [Z]; the arithmetic of [Z] is the
      arithmetic of the script as long as the operands and the result of an
      operation stay within 2^53 in magnitude ([safe]).  Theorems whose
      conclusion rests on the value of a computed timestamp or idle time
      carry that range as a hypothesis ([exact_backdate],
      [exact_arithmetic]); counters are lengths of arrays and always exact.
    - The [Map] [tabLastActive] is a [gmap Z Z]; [Map.get] on a missing key
      yields [undefined], embedded as [None].
    - The browser is an interface ([HostAPI]): an enumeration of the tabs and
      a discard action that resolves or rejects.
    - Every handler runs to completion on a world made of the settings, the
      activity map, the host and the list of observable events emitted so far
      (host calls and console lines, oldest first).  Interleaving of two
      handlers at an [await] is outside the model, but for the [await] of
      [saveSettings], which [saveSettings_until_await] splits.
    - Console lines are kept as structured values; the rendering of the text
      is not modelled. *)

From Stdlib Require Import ZArith List Bool String Lia.
From stdpp Require Import base option gmap.
Import ListNotations.
Local Open Scope Z_scope.

(** ** Data model *)

(** The attributes of a [tabs.Tab] that the script reads.  [url] and [title]
    may be absent (the script reads them through [?.]). *)
Record Tab := mkTab {
  tab_id : Z;
  tab_active : bool;
  tab_pinned : bool;
  tab_audible : bool;
  tab_discarded : bool;
  tab_url : option string;
  tab_title : option string
}.

Record Settings := mkSettings {
  enabled : bool;
  inactiveTimeout : Z;
  checkInterval : Z;
  excludePinned : bool;
  excludeAudible : bool;
  minTabs : Z
}.

Definition DEFAULT_SETTINGS : Settings :=
  {| enabled := true;
     inactiveTimeout := 30;
     checkInterval := 5;
     excludePinned := false;
     excludeAudible := true;
     minTabs := 1 |}.

(** The five reasons for which a tab is left alone, in source order. *)
Inductive rule := RActive | RDiscarded | RPinned | RAudible | RSystem.

(** [tab.url?.startsWith(p)]: [undefined] (falsy) when the url is absent. *)
Definition startsWith (url : option string) (p : string) : bool :=
  match url with
  | None => false
  | Some u => String.prefix p u
  end.

(** [tab.title?.substring(0, n)] *)
Definition titlePrefix (n : nat) (tab : Tab) : option string :=
  match tab_title tab with
  | None => None
  | Some t => Some (String.substring 0 n t)
  end.

(** ** Exclusion policy *)

(** [shouldExclude(tab)], reading the global [settings]. *)
Definition shouldExclude (s : Settings) (tab : Tab) : bool :=
  if tab_active tab then true
  else if tab_discarded tab then true
  else if excludePinned s && tab_pinned tab then true
  else if excludeAudible s && tab_audible tab then true
  else if startsWith (tab_url tab) "about:"
          || startsWith (tab_url tab) "moz-extension:"
          || startsWith (tab_url tab) "chrome:" then true
  else false.

(** The same function, recording which [return true] is reached. *)
Definition shouldExclude_site (s : Settings) (tab : Tab) : option rule :=
  if tab_active tab then Some RActive
  else if tab_discarded tab then Some RDiscarded
  else if excludePinned s && tab_pinned tab then Some RPinned
  else if excludeAudible s && tab_audible tab then Some RAudible
  else if startsWith (tab_url tab) "about:"
          || startsWith (tab_url tab) "moz-extension:"
          || startsWith (tab_url tab) "chrome:" then Some RSystem
  else None.

(** The guards at the head of the loop body of the scan: each one is a
    [continue].  The result names the guard that fired. *)
Definition scan_guards (s : Settings) (tab : Tab) : option rule :=
  if tab_active tab then Some RActive
  else if tab_discarded tab then Some RDiscarded
  else if excludePinned s && tab_pinned tab then Some RPinned
  else if excludeAudible s && tab_audible tab then Some RAudible
  else if startsWith (tab_url tab) "about:"
          || startsWith (tab_url tab) "moz-extension:"
          || startsWith (tab_url tab) "chrome:" then Some RSystem
  else None.

(** *** The policy as the specification words it

    An ordered list of conditions; the verdict is the first one that holds. *)
Definition protected_schemes : list string :=
  ["about:"; "moz-extension:"; "chrome:"]%string.

Definition rule_holds (s : Settings) (tab : Tab) (r : rule) : bool :=
  match r with
  | RActive => tab_active tab
  | RDiscarded => tab_discarded tab
  | RPinned => excludePinned s && tab_pinned tab
  | RAudible => excludeAudible s && tab_audible tab
  | RSystem => existsb (startsWith (tab_url tab)) protected_schemes
  end.

Definition rule_order : list rule :=
  [RActive; RDiscarded; RPinned; RAudible; RSystem].

Definition isExcluded_spec (s : Settings) (tab : Tab) : option rule :=
  List.find (rule_holds s tab) rule_order.

(** ** Observable events *)

(** Lines written with [console.log]. *)
Inductive log_line :=
| LogTracking (id : Z) (title : option string) (active : bool)
| LogChecking (total alreadyDiscarded activeTabCount : nat)
| LogSkipPinned (title : option string)
| LogSkipAudible (title : option string)
| LogStartedTracking (title : option string)
| LogInactive (title : option string) (inactiveSeconds timeout : Z)
| LogKeepingMinimum (minTabs : Z)
| LogDiscarded (title : option string)
| LogForceStart
| LogForceDiscarded (title : option string).

(** Lines written with [console.error]. *)
Inductive error_line :=
| ErrFailedDiscard (id : Z)
| ErrForceFailed.

Inductive event :=
| EvQuery                          (* browser.tabs.query({}) *)
| EvDiscard (id : Z) (ok : bool)   (* browser.tabs.discard(id): resolved or rejected *)
| EvLog (l : log_line)
| EvError (e : error_line).

(** The discard calls of a run, in order, with their outcome. *)
Fixpoint discards (evs : list event) : list (Z * bool) :=
  match evs with
  | [] => []
  | EvDiscard id ok :: rest => (id, ok) :: discards rest
  | _ :: rest => discards rest
  end.

(** How many discard calls resolved. *)
Fixpoint successes (evs : list event) : Z :=
  match evs with
  | [] => 0
  | EvDiscard _ true :: rest => 1 + successes rest
  | _ :: rest => successes rest
  end.

(** Every rejected discard call is followed at once by a [console.error]. *)
Fixpoint failures_logged (evs : list event) : bool :=
  match evs with
  | [] => true
  | EvDiscard _ false :: rest =>
      match rest with
      | EvError _ :: _ => failures_logged rest
      | _ => false
      end
  | _ :: rest => failures_logged rest
  end.

Definition is_query (e : event) : bool :=
  match e with EvQuery => true | _ => false end.

(** ** The host *)

(** What the script needs from the browser: the enumeration of the tabs, in
    the host's order, and the discard action, which either resolves ([true])
    or rejects ([false]) and may change the host. *)
Class HostAPI (Host : Type) := {
  tabs_query : Host -> list Tab;
  tabs_discard : Z -> Host -> bool * Host
}.

(** A host that accepts every discard and keeps no state but its tabs. *)
Definition willing_host : HostAPI (list Tab) :=
  {| tabs_query := fun h => h;
     tabs_discard := fun _ h => (true, h) |}.

(** A host that rejects the discard of the listed ids. *)
Definition picky_host (rejected : list Z) : HostAPI (list Tab) :=
  {| tabs_query := fun h => h;
     tabs_discard := fun id h =>
       (negb (existsb (Z.eqb id) rejected), h) |}.

Section Engine.

Context {Host : Type} `{HostAPI Host}.

(** ** The world a handler runs in *)

Record World := mkWorld {
  settings : Settings;            (* let settings *)
  tabLastActive : gmap Z Z;       (* const tabLastActive = new Map() *)
  host : Host;
  console : list event
}.

Definition M (A : Type) : Type := World -> A * World.

Definition ret {A} (a : A) : M A := fun w => (a, w).

Definition bind {A B} (m : M A) (k : A -> M B) : M B :=
  fun w => let (a, w') := m w in k a w'.

Notation "'let*' x ':=' m 'in' k" := (bind m (fun x => k))
  (at level 10, x name, m at level 200, k at level 200, only parsing).
Notation "m >> k" := (bind m (fun _ => k))
  (at level 65, right associativity, only parsing).

Definition emit (e : event) : M unit :=
  fun w => (tt, mkWorld (settings w) (tabLastActive w) (host w) (console w ++ [e])).

Definition read_settings : M Settings := fun w => (settings w, w).

Definition console_log (l : log_line) : M unit := emit (EvLog l).
Definition console_error (e : error_line) : M unit := emit (EvError e).

(** [await browser.tabs.query({})] *)
Definition query : M (list Tab) :=
  emit EvQuery >>
  fun w => (tabs_query (host w), w).

(** [await browser.tabs.discard(id)] inside [try]: the result says whether
    the call resolved. *)
Definition discard (id : Z) : M bool :=
  fun w =>
    let (ok, h') := tabs_discard id (host w) in
    (ok, mkWorld (settings w) (tabLastActive w) h' (console w ++ [EvDiscard id ok])).

(** ** Activity tracker *)

(** [tabLastActive.get(id)] *)
Definition tracker_get (id : Z) : M (option Z) :=
  fun w => (tabLastActive w !! id, w).

(** [tabLastActive.set(id, t)] *)
Definition tracker_set (id t : Z) : M unit :=
  fun w => (tt, mkWorld (settings w) (<[id := t]> (tabLastActive w)) (host w) (console w)).

(** [!lastActive] for the result of [Map.get]: [undefined] and [0] are the
    falsy values a timestamp can take. *)
Definition falsy (v : option Z) : bool :=
  match v with
  | None => true
  | Some t => t =? 0
  end.

(** ** Cold start *)

(** The loop of [initializeTabTracking]; [now] is the value read from
    [Date.now()].  Both branches of the test on [tab.active] store [now]. *)
Fixpoint track_all (now : Z) (tabs : list Tab) : M unit :=
  match tabs with
  | [] => ret tt
  | tab :: rest =>
      (if tab_active tab then tracker_set (tab_id tab) now
       else tracker_set (tab_id tab) now) >>
      console_log (LogTracking (tab_id tab) (titlePrefix 30 tab) (tab_active tab)) >>
      track_all now rest
  end.

Definition initializeTabTracking (now : Z) : M unit :=
  let* tabs := query in
  track_all now tabs.

(** ** The periodic scan *)

Inductive ctl := Continue | Break.

(** [Math.round(x / 1000)] on an integer [x]: halves round towards
    positive infinity. *)
Definition round_div_1000 (x : Z) : Z := (x + 500) / 1000.

(** Lines 317-324: read the last activity of the tab; a falsy result is
    replaced by a timestamp already past the timeout, which is stored.  The
    sum and the difference are those of [Z]; they are the ones the script
    computes when their operands and results are integers of at most 2^53
    in magnitude, and the theorems that rest on the stored value or on the
    idle time it gives assume so. *)
Definition lastActive_or_backdate (now timeoutMs : Z) (tab : Tab) : M Z :=
  let* lastActive := tracker_get (tab_id tab) in
  if falsy lastActive then
    let lastActive := now - (timeoutMs + 1000) in
    tracker_set (tab_id tab) lastActive >>
    console_log (LogStartedTracking (titlePrefix 25 tab)) >>
    ret lastActive
  else ret (default 0 lastActive).

(** Lines 338-345: the discard call in its [try]/[catch].  A rejection
    carries an [Error] object, as the WebExtension API gives, so that reading
    [error.message] in the handler does not throw. *)
Definition try_discard (tab : Tab) (discardedCount : Z) : M Z :=
  let* ok := discard (tab_id tab) in
  if ok
  then console_log (LogDiscarded (tab_title tab)) >> ret (discardedCount + 1)
  else console_error (ErrFailedDiscard (tab_id tab)) >> ret discardedCount.

(** One iteration of [for (const tab of tabs)].  [activeTabs_length] is
    [activeTabs.length]; the result carries the loop control and the new
    value of [discardedCount]. *)
Definition scan_body (now timeoutMs activeTabs_length : Z)
    (tab : Tab) (discardedCount : Z) : M (ctl * Z) :=
  let* s := read_settings in
  match scan_guards s tab with
  | Some RPinned =>
      console_log (LogSkipPinned (titlePrefix 25 tab)) >>
      ret (Continue, discardedCount)
  | Some RAudible =>
      console_log (LogSkipAudible (titlePrefix 25 tab)) >>
      ret (Continue, discardedCount)
  | Some _ => ret (Continue, discardedCount)
  | None =>
      let* lastActive := lastActive_or_backdate now timeoutMs tab in
      let inactiveFor := now - lastActive in
      let inactiveSeconds := round_div_1000 inactiveFor in
      console_log (LogInactive (titlePrefix 25 tab) inactiveSeconds (inactiveTimeout s)) >>
      if inactiveFor >? timeoutMs then
        if activeTabs_length - discardedCount <=? minTabs s then
          console_log (LogKeepingMinimum (minTabs s)) >>
          ret (Break, discardedCount)
        else
          let* discardedCount := try_discard tab discardedCount in
          ret (Continue, discardedCount)
      else ret (Continue, discardedCount)
  end.

(** The loop; the control says whether it ended on [break]. *)
Fixpoint scan_loop (now timeoutMs activeTabs_length : Z)
    (tabs : list Tab) (discardedCount : Z) : M (ctl * Z) :=
  match tabs with
  | [] => ret (Continue, discardedCount)
  | tab :: rest =>
      let* r := scan_body now timeoutMs activeTabs_length tab discardedCount in
      match r with
      | (Break, discardedCount) => ret (Break, discardedCount)
      | (Continue, discardedCount) =>
          scan_loop now timeoutMs activeTabs_length rest discardedCount
      end
  end.

Definition checkAndDiscardInactiveTabs (now : Z) : M Z :=
  let* s := read_settings in
  if negb (enabled s) then ret 0
  else
    let* tabs := query in
    let timeoutMs := inactiveTimeout s * 1000 in
    let activeTabs := List.filter (fun t => negb (tab_discarded t)) tabs in
    let alreadyDiscarded := length (List.filter (fun t => tab_discarded t) tabs) in
    let activeTabCount := length (List.filter (fun t => tab_active t) tabs) in
    console_log (LogChecking (length tabs) alreadyDiscarded activeTabCount) >>
    let* r := scan_loop now timeoutMs (Z.of_nat (length activeTabs)) tabs 0 in
    ret (snd r).

(** ** The manual path *)

Fixpoint force_loop (tabs : list Tab) (discardedCount : Z) : M Z :=
  match tabs with
  | [] => ret discardedCount
  | tab :: rest =>
      let* s := read_settings in
      if shouldExclude s tab then force_loop rest discardedCount
      else
        let* ok := discard (tab_id tab) in
        if ok
        then console_log (LogForceDiscarded (tab_title tab)) >>
             force_loop rest (discardedCount + 1)
        else console_error ErrForceFailed >>
             force_loop rest discardedCount
  end.

Definition forceDiscardInactiveTabs : M Z :=
  let* tabs := query in
  console_log LogForceStart >>
  force_loop tabs 0.

(** The world [w] after the events [evs] were appended to its console. *)
Definition after_events (w : World) (evs : list event) : World :=
  mkWorld (settings w) (tabLastActive w) (host w) (console w ++ evs).

(** The events emitted between a world and a later one (the console only
    grows, at its end). *)
Definition events_since (w w' : World) : list event :=
  drop (length (console w)) (console w').

(** The console lines of an iteration of the scan that stops at guard [r]. *)
Definition skip_lines (r : rule) (tab : Tab) : list event :=
  match r with
  | RPinned => [EvLog (LogSkipPinned (titlePrefix 25 tab))]
  | RAudible => [EvLog (LogSkipAudible (titlePrefix 25 tab))]
  | _ => []
  end.

(** A stored value that sends the tab to the floor test: it is falsy (and
    gets backdated) or older than the timeout. *)
Definition overdue (now timeoutMs : Z) (v : option Z) : bool :=
  falsy v || (now - default 0 v >? timeoutMs).

(** The console lines of [try_discard], by outcome. *)
Definition discard_lines (tab : Tab) (ok : bool) : list event :=
  [EvDiscard (tab_id tab) ok;
   if ok then EvLog (LogDiscarded (tab_title tab))
   else EvError (ErrFailedDiscard (tab_id tab))].

(** [activeTabs.length]: the tabs of the enumeration that are not discarded. *)
Definition pool (tabs : list Tab) : Z :=
  Z.of_nat (length (List.filter (fun t => negb (tab_discarded t)) tabs)).

(** What an enabled scan emits before it enters its loop. *)
Definition scan_header (tabs : list Tab) : list event :=
  [EvQuery;
   EvLog (LogChecking (length tabs)
            (length (List.filter (fun t => tab_discarded t) tabs))
            (length (List.filter (fun t => tab_active t) tabs)))].

End Engine.

Arguments World Host : clear implicits.
Arguments M Host A : clear implicits.

(** ** The range in which the arithmetic is exact *)

(** The integers up to 2^53 in magnitude are all doubles, and an addition,
    subtraction or multiplication of doubles whose exact result is such an
    integer is exact (IEEE operations round the exact result). *)
Definition safe (z : Z) : Prop := Z.abs z <= 2 ^ 53.

(** No rounding in lines 321 and 326 for a tab with a falsy record:
    [timeoutMs + 1000], [now - (timeoutMs + 1000)] and the idle time
    [now - lastActive], which is [timeoutMs + 1000] again. *)
Definition exact_backdate (now timeoutMs : Z) : Prop :=
  safe now /\ safe timeoutMs /\ safe (timeoutMs + 1000)
  /\ safe (now - (timeoutMs + 1000)).

(** No rounding anywhere in a scan at [now]: in [inactiveTimeout * 1000]
    (line 283), in the backdating, and in the idle time of every record. *)
Definition exact_arithmetic (now inactiveTimeout : Z) (m : gmap Z Z) : Prop :=
  safe inactiveTimeout
  /\ exact_backdate now (inactiveTimeout * 1000)
  /\ map_Forall (fun _ v => safe v /\ safe (now - v)) m.

(** ** Statistics for the popup *)

(** The object returned by [getStats]. *)
Record Stats := mkStats {
  stats_total : Z;
  stats_active : Z;
  stats_discarded : Z;
  stats_enabled : bool
}.

Section Statistics.

Context {Host : Type} `{HostAPI Host}.

Definition getStats : M Host Stats :=
  bind query (fun tabs =>
  let discarded := Z.of_nat (length (List.filter (fun t => tab_discarded t) tabs)) in
  let active := Z.of_nat (length tabs) - discarded in
  bind read_settings (fun s =>
  ret {| stats_total := Z.of_nat (length tabs);
         stats_active := active;
         stats_discarded := discarded;
         stats_enabled := enabled s |})).

(** The activity map after lines 317-324 ran for [tab]. *)
Definition tracker_after_lookup (now timeoutMs : Z) (tab : Tab) (m : gmap Z Z)
    : gmap Z Z :=
  if falsy (m !! tab_id tab)
  then <[tab_id tab := now - (timeoutMs + 1000)]> m
  else m.

(** The value of [lastActive] after lines 317-324. *)
Definition lastActive_after_lookup (now timeoutMs : Z) (v : option Z) : Z :=
  if falsy v then now - (timeoutMs + 1000) else default 0 v.

(** The console lines of lines 317-329. *)
Definition lookup_lines (now timeoutMs : Z) (s : Settings) (tab : Tab)
    (v : option Z) : list event :=
  (if falsy v then [EvLog (LogStartedTracking (titlePrefix 25 tab))] else [])
  ++ [EvLog (LogInactive (titlePrefix 25 tab)
               (round_div_1000 (now - lastActive_after_lookup now timeoutMs v))
               (inactiveTimeout s))].

(** The tabs of an enumeration that [shouldExclude] lets through. *)
Definition candidates (s : Settings) (tabs : list Tab) : list Tab :=
  List.filter (fun t => negb (shouldExclude s t)) tabs.

End Statistics.

(** ** The rest of the background script *)

(** An object that holds some of the properties of the settings: what the
    popup sends and what the store returns.  A field is [None] when the
    property is absent; properties other than the six are not modelled. *)
Record SettingsPatch := mkPatch {
  patch_enabled : option bool;
  patch_inactiveTimeout : option Z;
  patch_checkInterval : option Z;
  patch_excludePinned : option bool;
  patch_excludeAudible : option bool;
  patch_minTabs : option Z
}.

(** [{}], and also [undefined], which spreads to nothing. *)
Definition no_patch : SettingsPatch := mkPatch None None None None None None.

(** [{ ...base, ...patch }] *)
Definition spread (base : Settings) (patch : SettingsPatch) : Settings :=
  {| enabled := default (enabled base) (patch_enabled patch);
     inactiveTimeout := default (inactiveTimeout base) (patch_inactiveTimeout patch);
     checkInterval := default (checkInterval base) (patch_checkInterval patch);
     excludePinned := default (excludePinned base) (patch_excludePinned patch);
     excludeAudible := default (excludeAudible base) (patch_excludeAudible patch);
     minTabs := default (minTabs base) (patch_minTabs patch) |}.

(** The settings object itself, as the store and the messages carry it. *)
Definition as_patch (s : Settings) : SettingsPatch :=
  {| patch_enabled := Some (enabled s);
     patch_inactiveTimeout := Some (inactiveTimeout s);
     patch_checkInterval := Some (checkInterval s);
     patch_excludePinned := Some (excludePinned s);
     patch_excludeAudible := Some (excludeAudible s);
     patch_minTabs := Some (minTabs s) |}.

(** [browser.storage.local] for the key ['settings'].  [storage_get] is
    [None] when the call rejects and otherwise gives [stored.settings]
    ([None] when nothing is stored); [storage_set] is [None] when the call
    rejects. *)
Class StorageAPI (Store : Type) := {
  storage_get : Store -> option (option SettingsPatch);
  storage_set : SettingsPatch -> Store -> option Store
}.

(** A store that keeps what it is given. *)
Definition memory_store : StorageAPI (option SettingsPatch) :=
  {| storage_get := fun st => Some st;
     storage_set := fun p _ => Some (Some p) |}.

(** A store whose calls all reject. *)
Definition broken_store : StorageAPI unit :=
  {| storage_get := fun _ => None;
     storage_set := fun _ _ => None |}.

(** Console lines of the functions below. *)
Inductive note :=
| NoteStarting
| NoteSettingsLoaded (s : Settings)
| NoteTrackingInitialized (size : nat)
| NoteListeners
| NoteIntervalStarted
| NoteReady
| NoteWillSuspend (inactiveTimeout : Z)
| NoteLoadFailed                       (* console.error *)
| NoteIntervalSet (checkInterval : Z)
| NoteCreated (id : Z)
| NoteActivated (id : Z)
| NoteAudio (id : Z)
| NoteNavigated (id : Z)
| NoteRemoved (id : Z)
| NoteSettingsUpdated (s : Settings)
| NoteMessage (type : string).

(** The console of the whole script: the events of the scan, of the manual
    path and of the cold start, and the lines above, oldest first. *)
Inductive entry :=
| Engine (e : event)
| Note (n : note).

(** The events among the entries, without the lines. *)
Definition engine_events (es : list entry) : list event :=
  omap (fun e => match e with Engine ev => Some ev | Note _ => None end) es.

(** The [changeInfo] of [tabs.onUpdated], for the two properties read. *)
Record ChangeInfo := mkChangeInfo {
  change_audible : option bool;
  change_url : option string
}.

(** Truthiness of [changeInfo.url]: a string that is not empty. *)
Definition truthy_string (s : option string) : bool :=
  match s with
  | Some EmptyString | None => false
  | Some _ => true
  end.

(** [changeInfo.audible === true] *)
Definition is_true (b : option bool) : bool :=
  match b with
  | Some true => true
  | _ => false
  end.

Record Message := mkMessage {
  msg_type : string;
  msg_settings : SettingsPatch      (* [no_patch] when absent *)
}.

(** What [handleMessage] resolves to. *)
Inductive reply :=
| ReplySettings (s : Settings)
| ReplySuccess
| ReplyStats (st : Stats)
| ReplyDiscarded (discarded : Z)
| ReplyUndefined.

Section Background.

Context {Host : Type} {host_api : HostAPI Host}
        {Store : Type} {store_api : StorageAPI Store}.

(** The state of the script and of what it talks to: the three globals
    [settings], [tabLastActive] and [checkIntervalId], the host, the store,
    the interval timers the script has running (handle to delay in ms) with
    the next handle the runtime gives out, whether the listeners are
    registered, and the console.  Handles are positive, as [setInterval]
    returns them, hence truthy. *)
Record Extension := mkExtension {
  x_settings : Settings;
  x_tabLastActive : gmap Z Z;
  x_host : Host;
  x_store : Store;
  x_timers : gmap positive Z;
  x_nextTimer : positive;
  x_checkIntervalId : option positive;
  x_listening : bool;
  x_console : list entry
}.

Definition set_settings (s : Settings) (x : Extension) : Extension :=
  mkExtension s (x_tabLastActive x) (x_host x) (x_store x) (x_timers x)
    (x_nextTimer x) (x_checkIntervalId x) (x_listening x) (x_console x).

Definition set_tracker (m : gmap Z Z) (x : Extension) : Extension :=
  mkExtension (x_settings x) m (x_host x) (x_store x) (x_timers x)
    (x_nextTimer x) (x_checkIntervalId x) (x_listening x) (x_console x).

Definition set_store (st : Store) (x : Extension) : Extension :=
  mkExtension (x_settings x) (x_tabLastActive x) (x_host x) st (x_timers x)
    (x_nextTimer x) (x_checkIntervalId x) (x_listening x) (x_console x).

Definition set_listening (b : bool) (x : Extension) : Extension :=
  mkExtension (x_settings x) (x_tabLastActive x) (x_host x) (x_store x)
    (x_timers x) (x_nextTimer x) (x_checkIntervalId x) b (x_console x).

(** [console.log] / [console.error] of one of the lines above. *)
Definition write (n : note) (x : Extension) : Extension :=
  mkExtension (x_settings x) (x_tabLastActive x) (x_host x) (x_store x)
    (x_timers x) (x_nextTimer x) (x_checkIntervalId x) (x_listening x)
    (x_console x ++ [Note n]).

(** Running one of the functions modelled on [World]: it works on the same
    globals and host, and what it emits goes to the console. *)
Definition world_of (x : Extension) : World Host :=
  mkWorld (x_settings x) (x_tabLastActive x) (x_host x) [].

Definition engine {A : Type} (m : M Host A) (x : Extension) : A * Extension :=
  let (a, w) := m (world_of x) in
  (a, mkExtension (settings w) (tabLastActive w) (host w) (x_store x)
        (x_timers x) (x_nextTimer x) (x_checkIntervalId x) (x_listening x)
        (x_console x ++ map Engine (console w))).

(** *** Settings *)

Definition loadSettings (x : Extension) : Extension :=
  match storage_get (x_store x) with
  | Some (Some stored) => set_settings (spread DEFAULT_SETTINGS stored) x
  | Some None => x
  | None => write NoteLoadFailed x
  end.

Definition startCheckInterval (x : Extension) : Extension :=
  let timers :=
    match x_checkIntervalId x with
    | Some id => delete id (x_timers x)          (* clearInterval *)
    | None => x_timers x
    end in
  let id := x_nextTimer x in                       (* setInterval *)
  write (NoteIntervalSet (checkInterval (x_settings x)))
    (mkExtension (x_settings x) (x_tabLastActive x) (x_host x) (x_store x)
       (<[id := checkInterval (x_settings x) * 1000]> timers)
       (Pos.succ id) (Some id) (x_listening x) (x_console x)).

(** The result says whether the promise resolved; it rejects when the store
    does, before the interval is restarted. *)
Definition saveSettings (newSettings : SettingsPatch) (x : Extension)
    : bool * Extension :=
  let x := set_settings (spread (x_settings x) newSettings) x in
  match storage_set (as_patch (x_settings x)) (x_store x) with
  | Some st => (true, startCheckInterval (set_store st x))
  | None => (false, x)
  end.

(** [saveSettings] up to the point where it awaits the store (lines
    127-128): the settings in memory have the new values and the store is
    written; [None] when the store rejects.  What runs when the script
    resumes is [startCheckInterval] (line 131), and other handlers and ticks
    can run before it does. *)
Definition saveSettings_until_await (newSettings : SettingsPatch) (x : Extension)
    : option Extension :=
  let x := set_settings (spread (x_settings x) newSettings) x in
  match storage_set (as_patch (x_settings x)) (x_store x) with
  | Some st => Some (set_store st x)
  | None => None
  end.

(** [changes.settings] is [None] when the change is not about the settings,
    and otherwise holds [changes.settings.newValue] ([None] when the key was
    removed). *)
Definition handleStorageChanged (changes : option (option SettingsPatch))
    (area : string) (x : Extension) : Extension :=
  if String.eqb area "local" then
    match changes with
    | Some newValue =>
        let x := set_settings (spread DEFAULT_SETTINGS (default no_patch newValue)) x in
        let x := startCheckInterval x in
        write (NoteSettingsUpdated (x_settings x)) x
    | None => x
    end
  else x.

(** *** Lifecycle of the tabs *)

Definition handleTabCreated (now : Z) (tab : Tab) (x : Extension) : Extension :=
  write (NoteCreated (tab_id tab))
    (set_tracker (<[tab_id tab := now]> (x_tabLastActive x)) x).

Definition handleTabActivated (now : Z) (tabId : Z) (x : Extension) : Extension :=
  write (NoteActivated tabId)
    (set_tracker (<[tabId := now]> (x_tabLastActive x)) x).

(** [now1] and [now2] are the two readings of [Date.now()], in order. *)
Definition handleTabUpdated (now1 now2 : Z) (tabId : Z) (changeInfo : ChangeInfo)
    (x : Extension) : Extension :=
  let x :=
    if is_true (change_audible changeInfo)
    then write (NoteAudio tabId)
           (set_tracker (<[tabId := now1]> (x_tabLastActive x)) x)
    else x in
  if truthy_string (change_url changeInfo)
  then write (NoteNavigated tabId)
         (set_tracker (<[tabId := now2]> (x_tabLastActive x)) x)
  else x.

Definition handleTabRemoved (tabId : Z) (x : Extension) : Extension :=
  write (NoteRemoved tabId)
    (set_tracker (delete tabId (x_tabLastActive x)) x).

(** *** Start, timer and messages *)

Definition setupListeners (x : Extension) : Extension := set_listening true x.

Definition init (now : Z) (x : Extension) : Extension :=
  let x := write NoteStarting x in
  let x := loadSettings x in
  let x := write (NoteSettingsLoaded (x_settings x)) x in
  let x := snd (engine (initializeTabTracking now) x) in
  let x := write (NoteTrackingInitialized (size (x_tabLastActive x))) x in
  let x := setupListeners x in
  let x := write NoteListeners x in
  let x := startCheckInterval x in
  let x := write NoteIntervalStarted x in
  let x := write NoteReady x in
  write (NoteWillSuspend (inactiveTimeout (x_settings x))) x.

(** The callback given to [setInterval]. *)
Definition tick (now : Z) (x : Extension) : Extension :=
  snd (engine (checkAndDiscardInactiveTabs now) x).

(** The result is [None] when the promise rejects. *)
Definition handleMessage (message : Message) (x : Extension)
    : option reply * Extension :=
  let x := write (NoteMessage (msg_type message)) x in
  if String.eqb (msg_type message) "getSettings" then
    (Some (ReplySettings (x_settings x)), x)
  else if String.eqb (msg_type message) "saveSettings" then
    let (ok, x) := saveSettings (msg_settings message) x in
    (if ok then Some ReplySuccess else None, x)
  else if String.eqb (msg_type message) "getStats" then
    let (st, x) := engine getStats x in
    (Some (ReplyStats st), x)
  else if String.eqb (msg_type message) "discardNow" then
    let (discarded, x) := engine forceDiscardInactiveTabs x in
    (Some (ReplyDiscarded discarded), x)
  else (Some ReplyUndefined, x).

(** *** What can happen to the script *)

Inductive action :=
| ATabCreated (now : Z) (tab : Tab)
| ATabActivated (now : Z) (tabId : Z)
| ATabUpdated (now1 now2 : Z) (tabId : Z) (changeInfo : ChangeInfo)
| ATabRemoved (tabId : Z)
| AStorageChanged (changes : option (option SettingsPatch)) (area : string)
| AMessage (message : Message)
| ATick (timer : positive) (now : Z).

(** A registered listener runs on its event; a timer that is running fires. *)
Definition step (a : action) (x : Extension) : Extension :=
  match a with
  | ATick timer now =>
      match x_timers x !! timer with
      | Some _ => tick now x
      | None => x
      end
  | _ =>
      if x_listening x then
        match a with
        | ATabCreated now tab => handleTabCreated now tab x
        | ATabActivated now tabId => handleTabActivated now tabId x
        | ATabUpdated now1 now2 tabId changeInfo =>
            handleTabUpdated now1 now2 tabId changeInfo x
        | ATabRemoved tabId => handleTabRemoved tabId x
        | AStorageChanged changes area => handleStorageChanged changes area x
        | AMessage message => snd (handleMessage message x)
        | ATick _ _ => x
        end
      else x
  end.

Definition run (actions : list action) (x : Extension) : Extension :=
  fold_left (fun x a => step a x) actions x.

(** At most one timer runs, and [checkIntervalId] is its handle. *)
Definition single_timer (x : Extension) : Prop :=
  match x_checkIntervalId x with
  | Some id => exists delay, x_timers x = {[id := delay]}
  | None => x_timers x = ∅
  end.

(** The timer that runs has the period of the settings in force. *)
Definition timer_in_step (x : Extension) : Prop :=
  exists id,
    x_checkIntervalId x = Some id
    /\ x_timers x = {[id := checkInterval (x_settings x) * 1000]}.

(** The entries written between a state and a later one. *)
Definition entries_since (x x' : Extension) : list entry :=
  drop (length (x_console x)) (x_console x').

(** [x'] differs from [x] at most in the record of [id] and in the console. *)
Definition touches_only (id : Z) (x x' : Extension) : Prop :=
  x_settings x' = x_settings x
  /\ x_host x' = x_host x
  /\ x_store x' = x_store x
  /\ x_timers x' = x_timers x
  /\ x_checkIntervalId x' = x_checkIntervalId x
  /\ x_listening x' = x_listening x
  /\ forall id', id' <> id -> x_tabLastActive x' !! id' = x_tabLastActive x !! id'.

End Background.

Arguments Extension Host Store : clear implicits.

(** ** The popup *)

Module Popup.

(** The message of [saveSettings]: [enabled], [excludePinned] and
    [excludeAudible] are the [checked] states of the boxes, and
    [timeout_parsed] is [parseInt(elements.timeout.value, 10)], [None] for
    [NaN]. *)
Definition saveSettings (enabled : bool) (timeout_parsed : option Z)
    (excludePinned excludeAudible : bool) : Message :=
  {| msg_type := "saveSettings";
     msg_settings :=
       {| patch_enabled := Some enabled;
          patch_inactiveTimeout :=
            Some (match timeout_parsed with
                  | Some 0 | None => 30
                  | Some t => t
                  end);
          patch_checkInterval := None;
          patch_excludePinned := Some excludePinned;
          patch_excludeAudible := Some excludeAudible;
          patch_minTabs := None |} |}.

End Popup.

(** ** Test data *)

Definition web_tab (id : Z) (active pinned : bool) : Tab :=
  {| tab_id := id; tab_active := active; tab_pinned := pinned;
     tab_audible := false; tab_discarded := false;
     tab_url := Some "https://example.org/"%string;
     tab_title := Some "Example"%string |}.

(** A reading of the clock, and the four tabs of scenario A: tab 1 has the
    focus, tabs 2 to 4 were last active 40 seconds before. *)
Definition clock : Z := 1000000.

Definition tabs_A : list Tab :=
  [web_tab 1 true false; web_tab 2 false false;
   web_tab 3 false false; web_tab 4 false false].

Definition tracker_A : gmap Z Z :=
  <[2 := clock - 40000]> (<[3 := clock - 40000]> (<[4 := clock - 40000]> ∅)).

Definition world_A : World (list Tab) :=
  mkWorld DEFAULT_SETTINGS tracker_A tabs_A [].

(** The same tabs with a floor of 3. *)
Definition world_floor : World (list Tab) :=
  mkWorld (mkSettings true 30 5 false true 3) tracker_A tabs_A [].

(** The same tabs, none of them tracked. *)
Definition world_untracked : World (list Tab) :=
  mkWorld DEFAULT_SETTINGS ∅ tabs_A [].

(** The same tabs, tab 2 tracked with the timestamp 0. *)
Definition world_zero : World (list Tab) :=
  mkWorld DEFAULT_SETTINGS (<[2 := 0]> ∅) tabs_A [].

(** The same tabs with the scan switched off. *)
Definition world_off : World (list Tab) :=
  mkWorld (mkSettings false 30 5 false true 1) tracker_A tabs_A [].

(** Scenario B: five tabs, tabs 1 and 3 pinned, pinned tabs excluded, and a
    floor that no scan could go under. *)
Definition tabs_B : list Tab :=
  [web_tab 1 false true; web_tab 2 false false; web_tab 3 false true;
   web_tab 4 false false; web_tab 5 false false].

Definition world_B : World (list Tab) :=
  mkWorld (mkSettings true 30 5 true true 5) ∅ tabs_B [].

(** The tabs of scenario A with tab 2 last active 10 seconds before. *)
Definition world_recent : World (list Tab) :=
  mkWorld DEFAULT_SETTINGS (<[2 := clock - 10000]> ∅) tabs_A [].

(** The script before [init]: default settings, nothing tracked, no timer,
    the tabs of scenario A, and a store that is empty and keeps what it is
    given. *)
Definition script_start : Extension (list Tab) (option SettingsPatch) :=
  mkExtension DEFAULT_SETTINGS ∅ tabs_A None ∅ 1%positive None false [].

(** The same with a store whose calls reject. *)
Definition script_storeless : Extension (list Tab) unit :=
  mkExtension DEFAULT_SETTINGS ∅ tabs_A tt ∅ 1%positive None false [].

(** A save that turns the check interval to 60 seconds. *)
Definition slower_checks : SettingsPatch :=
  mkPatch None None (Some 60) None None None.

(** The script after [init] at [clock], and then in the middle of that save:
    the settings and the store have the new interval, the restart of the
    timer is still to come. *)
Definition script_running : Extension (list Tab) (option SettingsPatch) :=
  init (host_api := willing_host) (store_api := memory_store) clock script_start.

Definition script_saving : Extension (list Tab) (option SettingsPatch) :=
  set_store (Some (as_patch (mkSettings true 30 60 false true 1)))
    (set_settings (mkSettings true 30 60 false true 1) script_running).

(** ** Properties *)

Section Properties.

Context {Host : Type} `{HostAPI Host}.

Ltac run :=
  unfold checkAndDiscardInactiveTabs, forceDiscardInactiveTabs,
    initializeTabTracking, scan_body, try_discard, lastActive_or_backdate,
    query, discard, tracker_get, tracker_set, console_log, console_error,
    read_settings, emit, bind, ret, after_events in *;
  cbn [settings tabLastActive host console fst snd] in *.

Ltac tidy := cbn [settings tabLastActive host console fst snd app] in *.

Lemma after_events_nil (w : World Host) : after_events w [] = w.
Proof. destruct w; unfold after_events; cbn. by rewrite app_nil_r. Qed.

Lemma after_events_app (w : World Host) (a b : list event) :
  after_events (after_events w a) b = after_events w (a ++ b).
Proof. unfold after_events; cbn. by rewrite app_assoc. Qed.

(** *** The exclusion policy *)

Lemma shouldExclude_site_true (s : Settings) (tab : Tab) :
  shouldExclude s tab = true <-> is_Some (shouldExclude_site s tab).
Proof.
  unfold shouldExclude, shouldExclude_site.
  repeat match goal with |- context [if ?b then _ else _] => destruct b end;
    split; intros Hx; try done; try (by eexists); by destruct Hx.
Qed.

Lemma scan_guards_site (s : Settings) (tab : Tab) :
  scan_guards s tab = shouldExclude_site s tab.
Proof. reflexivity. Qed.

Lemma shouldExclude_guards_None (s : Settings) (tab : Tab) :
  shouldExclude s tab = false <-> scan_guards s tab = None.
Proof.
  unfold shouldExclude, scan_guards.
  repeat match goal with |- context [if ?b then _ else _] => destruct b end;
    split; intros Hx; done.
Qed.

(** C4: [shouldExclude] tests active, discarded, pinned (when pinned tabs
    are excluded), audible (when audible tabs are excluded) and the three
    protected schemes in that order and answers at the first test that
    holds; an active tab is excluded whatever its other fields, so is a
    discarded tab, and a tab that meets none of the five tests is not
    excluded. *)
Theorem shouldExclude_first_match (s : Settings) (tab : Tab) :
  shouldExclude_site s tab = isExcluded_spec s tab
  /\ (shouldExclude s tab = true <-> is_Some (shouldExclude_site s tab))
  /\ (tab_active tab = true -> shouldExclude s tab = true)
  /\ (tab_discarded tab = true -> shouldExclude s tab = true)
  /\ ((forall r, rule_holds s tab r = false) -> shouldExclude s tab = false).
Proof.
  split; [| split; [apply shouldExclude_site_true | repeat split]].
  - unfold shouldExclude_site, isExcluded_spec, rule_order, protected_schemes.
    cbn [List.find rule_holds existsb].
    destruct (tab_active tab); [done |].
    destruct (tab_discarded tab); [done |].
    destruct (excludePinned s && tab_pinned tab); [done |].
    destruct (excludeAudible s && tab_audible tab); [done |].
    unfold protected_schemes; cbn [existsb].
    by destruct (startsWith (tab_url tab) "about:"),
      (startsWith (tab_url tab) "moz-extension:"),
      (startsWith (tab_url tab) "chrome:").
  - intros Ha. unfold shouldExclude. by rewrite Ha.
  - intros Hd. unfold shouldExclude. rewrite Hd. by destruct (tab_active tab).
  - intros Hn. unfold shouldExclude.
    pose proof (Hn RActive) as H1. pose proof (Hn RDiscarded) as H2.
    pose proof (Hn RPinned) as H3. pose proof (Hn RAudible) as H4.
    pose proof (Hn RSystem) as H5.
    unfold rule_holds, protected_schemes in *; cbn [existsb] in *.
    rewrite H1, H2, H3, H4. revert H5.
    by destruct (startsWith (tab_url tab) "about:"),
      (startsWith (tab_url tab) "moz-extension:"),
      (startsWith (tab_url tab) "chrome:").
Qed.

Lemma events_since_app (w w' : World Host) (evs : list event) :
  console w' = console w ++ evs -> events_since w w' = evs.
Proof.
  intros Hc. unfold events_since. rewrite Hc.
  by rewrite drop_app_length.
Qed.

(** *** One iteration of the scan *)

Lemma scan_body_skip (now timeoutMs n : Z) (tab : Tab) (c : Z) (w : World Host) (r : rule) :
  scan_guards (settings w) tab = Some r ->
  scan_body now timeoutMs n tab c w = (Continue, c, after_events w (skip_lines r tab)).
Proof.
  intros Hg. unfold scan_body, bind, read_settings. rewrite Hg.
  destruct r; run; cbn [skip_lines]; try done;
    by rewrite app_nil_r; destruct w.
Qed.

Lemma scan_body_fresh (now timeoutMs n : Z) (tab : Tab) (c : Z) (w : World Host) :
  scan_guards (settings w) tab = None ->
  overdue now timeoutMs (tabLastActive w !! tab_id tab) = false ->
  scan_body now timeoutMs n tab c w =
    (Continue, c,
     after_events w
       [EvLog (LogInactive (titlePrefix 25 tab)
                 (round_div_1000 (now - default 0 (tabLastActive w !! tab_id tab)))
                 (inactiveTimeout (settings w)))]).
Proof.
  intros Hg Ho. unfold overdue in Ho. apply orb_false_iff in Ho as [Hf Hi].
  unfold scan_body, bind, read_settings. rewrite Hg. run.
  by rewrite Hf, Hi.
Qed.

Lemma scan_body_overdue (now timeoutMs n : Z) (tab : Tab) (c : Z) (w : World Host) :
  scan_guards (settings w) tab = None ->
  overdue now timeoutMs (tabLastActive w !! tab_id tab) = true ->
  let v := tabLastActive w !! tab_id tab in
  let lastActive := if falsy v then now - (timeoutMs + 1000) else default 0 v in
  let m' := if falsy v then <[tab_id tab := lastActive]> (tabLastActive w)
            else tabLastActive w in
  let lines :=
    (if falsy v then [EvLog (LogStartedTracking (titlePrefix 25 tab))] else [])
    ++ [EvLog (LogInactive (titlePrefix 25 tab) (round_div_1000 (now - lastActive))
                 (inactiveTimeout (settings w)))] in
  scan_body now timeoutMs n tab c w =
    if n - c <=? minTabs (settings w) then
      (Break, c,
       mkWorld (settings w) m' (host w)
         (console w ++ lines ++ [EvLog (LogKeepingMinimum (minTabs (settings w)))]))
    else
      let (ok, h') := tabs_discard (tab_id tab) (host w) in
      (Continue, if ok then c + 1 else c,
       mkWorld (settings w) m' h' (console w ++ lines ++ discard_lines tab ok)).
Proof.
  intros Hg Ho. unfold overdue in Ho. cbv zeta.
  unfold scan_body, bind, read_settings. rewrite Hg. run.
  destruct (falsy (tabLastActive w !! tab_id tab)) eqn:Hf;
    cbn [settings tabLastActive host console].
  - replace (now - (now - (timeoutMs + 1000)) >? timeoutMs) with true by lia.
    destruct (_ <=? _); [tidy; by rewrite <- !app_assoc |].
    destruct (tabs_discard _ _) as [[] h']; unfold discard_lines; tidy;
      by rewrite <- !app_assoc.
  - cbn [orb] in Ho. rewrite Ho.
    destruct (_ <=? _); [tidy; by rewrite <- !app_assoc |].
    destruct (tabs_discard _ _) as [[] h']; unfold discard_lines; tidy;
      by rewrite <- !app_assoc.
Qed.

(** *** Event lists *)

Lemma successes_app (a b : list event) :
  successes (a ++ b) = successes a + successes b.
Proof.
  induction a as [| [| id [] | |] a IH]; cbn [app successes]; lia.
Qed.

Lemma discards_app (a b : list event) :
  discards (a ++ b) = discards a ++ discards b.
Proof.
  induction a as [| [| id ok | |] a IH]; cbn [app discards]; by rewrite ?IH.
Qed.

Lemma queries_app (a b : list event) :
  existsb is_query (a ++ b) = existsb is_query a || existsb is_query b.
Proof. apply existsb_app. Qed.

(** What every iteration does, whatever the branch taken. *)
Lemma scan_body_inv (now timeoutMs n : Z) (tab : Tab) (c : Z) (w : World Host) :
  exists k c1 m1 h1 e1,
    scan_body now timeoutMs n tab c w
      = (k, c1, mkWorld (settings w) m1 h1 (console w ++ e1))
    /\ successes e1 = c1 - c
    /\ (forall e2, failures_logged (e1 ++ e2) = failures_logged e2)
    /\ existsb is_query e1 = false
    /\ (c1 = c \/ (c1 = c + 1 /\ c < n - minTabs (settings w)))
    /\ (k = Break -> c1 = c /\ discards e1 = []).
Proof.
  destruct (scan_guards (settings w) tab) as [r |] eqn:Hg.
  - rewrite (scan_body_skip _ _ _ _ _ _ r Hg).
    exists Continue, c, (tabLastActive w), (host w), (skip_lines r tab).
    split; [done |]. destruct r; cbn; repeat split; (done || lia || auto).
  - destruct (overdue now timeoutMs (tabLastActive w !! tab_id tab)) eqn:Ho.
    + rewrite (scan_body_overdue _ _ _ _ _ _ Hg Ho).
      destruct (n - c <=? minTabs (settings w)) eqn:Hfloor.
      * do 5 eexists. split; [reflexivity |].
        destruct (falsy _); cbn; repeat split; (done || lia || auto).
      * destruct (tabs_discard _ _) as [[] h'];
          do 5 eexists; (split; [reflexivity |]);
          destruct (falsy _); cbn; repeat split;
            (done || lia || (right; lia) || (left; lia) || auto).
    + rewrite (scan_body_fresh _ _ _ _ _ _ Hg Ho).
      do 5 eexists. split; [reflexivity |].
      cbn; repeat split; (done || lia || auto).
Qed.

(** *** The loop of the scan *)

Lemma scan_loop_app (now timeoutMs n : Z) (pre post : list Tab) :
  forall (c : Z) (w : World Host),
    scan_loop now timeoutMs n (pre ++ post) c w =
      match scan_loop now timeoutMs n pre c w with
      | (Break, c', w') => (Break, c', w')
      | (Continue, c', w') => scan_loop now timeoutMs n post c' w'
      end.
Proof.
  induction pre as [| tab pre IH]; intros c w; [done |].
  cbn [app scan_loop]. unfold bind.
  destruct (scan_body now timeoutMs n tab c w) as [[[] c1] w1]; [apply IH | done].
Qed.

Lemma scan_loop_inv (now timeoutMs n : Z) (tabs : list Tab) :
  forall (c : Z) (w : World Host),
  exists k c' m' h' evs,
    scan_loop now timeoutMs n tabs c w
      = (k, c', mkWorld (settings w) m' h' (console w ++ evs))
    /\ c' = c + successes evs
    /\ failures_logged evs = true
    /\ existsb is_query evs = false
    /\ (c <= Z.max 0 (n - minTabs (settings w)) ->
        c' <= Z.max 0 (n - minTabs (settings w))).
Proof.
  induction tabs as [| tab rest IH]; intros c w.
  - exists Continue, c, (tabLastActive w), (host w), [].
    cbn. rewrite app_nil_r. destruct w; cbn. repeat split; (done || lia).
  - cbn [scan_loop]. unfold bind.
    destruct (scan_body_inv now timeoutMs n tab c w)
      as (k & c1 & m1 & h1 & e1 & -> & Hs & Hf & Hq & Hc & Hb).
    destruct k.
    + destruct (IH c1 (mkWorld (settings w) m1 h1 (console w ++ e1)))
        as (k' & c' & m' & h' & e2 & -> & Hs2 & Hf2 & Hq2 & Hc2).
      tidy. exists k', c', m', h', (e1 ++ e2).
      rewrite app_assoc, successes_app, Hf, queries_app, Hq.
      repeat split; (done || lia).
    + exists Break, c1, m1, h1, e1. unfold ret.
      specialize (Hf []). rewrite app_nil_r in Hf. cbn in Hf.
      repeat split; (done || lia).
Qed.

Lemma scan_enabled (now : Z) (w : World Host) :
  enabled (settings w) = true ->
  checkAndDiscardInactiveTabs now w =
    let tabs := tabs_query (host w) in
    let r := scan_loop now (inactiveTimeout (settings w) * 1000) (pool tabs) tabs 0
               (after_events w (scan_header tabs)) in
    (snd (fst r), snd r).
Proof.
  intros He. unfold checkAndDiscardInactiveTabs, bind, read_settings.
  rewrite He. cbn [negb]. unfold query, bind, emit, console_log, emit, ret.
  tidy. unfold after_events, scan_header, pool.
  rewrite <- app_assoc. cbn [app].
  by destruct (scan_loop _ _ _ _ _ _) as [[k c] w'].
Qed.

Lemma scan_disabled (now : Z) (w : World Host) :
  enabled (settings w) = false ->
  checkAndDiscardInactiveTabs now w = (0, w).
Proof.
  intros He. unfold checkAndDiscardInactiveTabs, bind, read_settings, ret.
  by rewrite He.
Qed.

(** C7: when [settings.enabled] is false the scan returns 0 and leaves the
    world as it was: no enumeration of the tabs, no discard, no console
    line, the activity map untouched. *)
Theorem scan_disabled_is_noop (now : Z) (w : World Host) :
  enabled (settings w) = false ->
  checkAndDiscardInactiveTabs now w = (0, w).
Proof. apply scan_disabled. Qed.

(** C3: the guards inlined at the head of the loop of the scan fire exactly
    when [shouldExclude] returns true, and for the same reason; an iteration
    on an excluded tab continues with the count, the activity map and the
    host untouched, and an iteration on any other tab goes on to the idle
    test (it writes the "inactive" console line). *)
Theorem scan_guards_match_shouldExclude (s : Settings) (tab : Tab) :
  (is_Some (scan_guards s tab) <-> shouldExclude s tab = true)
  /\ scan_guards s tab = shouldExclude_site s tab
  /\ forall (now timeoutMs n c : Z) (w : World Host),
       settings w = s ->
       (shouldExclude s tab = true ->
        exists r, scan_guards s tab = Some r /\
          scan_body now timeoutMs n tab c w
            = (Continue, c, after_events w (skip_lines r tab)))
       /\ (shouldExclude s tab = false ->
           exists secs,
             In (EvLog (LogInactive (titlePrefix 25 tab) secs (inactiveTimeout s)))
                (events_since w (snd (scan_body now timeoutMs n tab c w)))).
Proof.
  split; [| split; [reflexivity |]].
  - rewrite scan_guards_site. symmetry. apply shouldExclude_site_true.
  - intros now timeoutMs n c w <-. split.
    + intros Hx. apply shouldExclude_site_true in Hx as [r Hr].
      exists r. split; [done |]. by apply scan_body_skip.
    + intros Hx. apply shouldExclude_guards_None in Hx.
      destruct (overdue now timeoutMs (tabLastActive w !! tab_id tab)) eqn:Ho.
      * rewrite (scan_body_overdue _ _ _ _ _ _ Hx Ho).
        eexists.
        destruct (_ <=? _); [| destruct (tabs_discard _ _) as [ok h']];
          cbn [snd]; (erewrite events_since_app; [| reflexivity]);
          rewrite !in_app_iff; left; right; left; reflexivity.
      * rewrite (scan_body_fresh _ _ _ _ _ _ Hx Ho).
        eexists. cbn [snd]. unfold after_events.
        (erewrite events_since_app; [| reflexivity]). left; reflexivity.
Qed.

(** *** The loop of the manual path *)

Lemma shouldExclude_flags (s s2 : Settings) (tab : Tab) :
  excludePinned s = excludePinned s2 ->
  excludeAudible s = excludeAudible s2 ->
  shouldExclude s tab = shouldExclude s2 tab.
Proof. intros Hp Ha. unfold shouldExclude. by rewrite Hp, Ha. Qed.

Lemma force_loop_excluded (tab : Tab) (rest : list Tab) (c : Z) (w : World Host) :
  shouldExclude (settings w) tab = true ->
  force_loop (tab :: rest) c w = force_loop rest c w.
Proof. intros Hx. cbn [force_loop]. unfold bind, read_settings. by rewrite Hx. Qed.

Lemma force_loop_attempt (tab : Tab) (rest : list Tab) (c : Z) (w : World Host) :
  shouldExclude (settings w) tab = false ->
  force_loop (tab :: rest) c w =
    let (ok, h') := tabs_discard (tab_id tab) (host w) in
    force_loop rest (if ok then c + 1 else c)
      (mkWorld (settings w) (tabLastActive w) h'
         (console w ++ [EvDiscard (tab_id tab) ok;
                        if ok then EvLog (LogForceDiscarded (tab_title tab))
                        else EvError ErrForceFailed])).
Proof.
  intros Hx. cbn [force_loop]. unfold bind, read_settings. rewrite Hx.
  unfold discard. destruct (tabs_discard _ _) as [[] h'];
    unfold console_log, console_error, emit; tidy;
    by rewrite <- app_assoc.
Qed.

(** The run of the loop is fixed by the tabs, the host and the two exclusion
    flags: two worlds that agree on those see the same calls and lines. *)
Lemma force_loop_frame (tabs : list Tab) :
  forall (c : Z) (w w2 : World Host),
    host w = host w2 ->
    excludePinned (settings w) = excludePinned (settings w2) ->
    excludeAudible (settings w) = excludeAudible (settings w2) ->
    exists h' evs,
      force_loop tabs c w
        = (c + successes evs,
           mkWorld (settings w) (tabLastActive w) h' (console w ++ evs))
      /\ force_loop tabs c w2
        = (c + successes evs,
           mkWorld (settings w2) (tabLastActive w2) h' (console w2 ++ evs))
      /\ failures_logged evs = true
      /\ existsb is_query evs = false
      /\ map fst (discards evs)
         = map tab_id
             (List.filter (fun t => negb (shouldExclude (settings w) t)) tabs).
Proof.
  induction tabs as [| tab rest IH]; intros c w w2 Hh Hp Ha.
  - exists (host w), []. cbn. rewrite !app_nil_r, Z.add_0_r.
    rewrite Hh at 2. by destruct w, w2.
  - pose proof (shouldExclude_flags _ _ tab Hp Ha) as Hsame.
    cbn [List.filter].
    destruct (shouldExclude (settings w) tab) eqn:Hx.
    + rewrite force_loop_excluded by done.
      rewrite force_loop_excluded by (by rewrite <- Hsame).
      cbn [negb]. by apply IH.
    + rewrite force_loop_attempt by done.
      rewrite force_loop_attempt by (by rewrite <- Hsame).
      rewrite <- Hh.
      destruct (tabs_discard (tab_id tab) (host w)) as [ok h1].
      edestruct (IH (if ok then c + 1 else c)
                   (mkWorld (settings w) (tabLastActive w) h1
                      (console w ++ [EvDiscard (tab_id tab) ok;
                         if ok then EvLog (LogForceDiscarded (tab_title tab))
                         else EvError ErrForceFailed]))
                   (mkWorld (settings w2) (tabLastActive w2) h1
                      (console w2 ++ [EvDiscard (tab_id tab) ok;
                         if ok then EvLog (LogForceDiscarded (tab_title tab))
                         else EvError ErrForceFailed])))
        as (h' & evs & E1 & E2 & Hf & Hq & Hd); [done .. |].
      rewrite E1, E2. tidy.
      exists h', ([EvDiscard (tab_id tab) ok;
                   if ok then EvLog (LogForceDiscarded (tab_title tab))
                   else EvError ErrForceFailed] ++ evs).
      rewrite !app_assoc.
      destruct ok; cbn [successes discards app map fst failures_logged existsb is_query orb];
        rewrite ?Hd, ?Z.add_assoc; by repeat split.
Qed.

Lemma force_unfold (w : World Host) :
  forceDiscardInactiveTabs w =
    force_loop (tabs_query (host w)) 0 (after_events w [EvQuery; EvLog LogForceStart]).
Proof.
  unfold forceDiscardInactiveTabs, query, bind, console_log, emit, after_events.
  tidy. by rewrite <- app_assoc.
Qed.

Lemma shouldExclude_pinned (s : Settings) (tab : Tab) :
  excludePinned s = true -> tab_pinned tab = true -> shouldExclude s tab = true.
Proof.
  intros Hs Hp. unfold shouldExclude. rewrite Hs, Hp.
  by destruct (tab_active tab), (tab_discarded tab).
Qed.

(** C6: the manual path calls the discard action on exactly the tabs that
    [shouldExclude] lets through, in the order of the enumeration, and
    returns the number of calls that resolved.  It neither reads nor writes
    the activity map, and its run does not depend on the timeout or on the
    floor: a world with the same host and the same two exclusion flags sees
    the same calls and the same count.  With five tabs of which two are
    pinned, pinned tabs being excluded and the other three let through,
    exactly three discards are attempted, on the three unpinned tabs. *)
Theorem force_discards_every_unexcluded (w : World Host) :
  let tabs := tabs_query (host w) in
  let s := settings w in
  let r := forceDiscardInactiveTabs w in
  let evs := events_since w (snd r) in
  console (snd r) = console w ++ evs
  /\ map fst (discards evs)
     = map tab_id (List.filter (fun t => negb (shouldExclude s t)) tabs)
  /\ fst r = successes evs
  /\ tabLastActive (snd r) = tabLastActive w
  /\ (forall w2 : World Host,
        host w2 = host w ->
        excludePinned (settings w2) = excludePinned s ->
        excludeAudible (settings w2) = excludeAudible s ->
        fst (forceDiscardInactiveTabs w2) = fst r
        /\ events_since w2 (snd (forceDiscardInactiveTabs w2)) = evs)
  /\ (excludePinned s = true ->
      length tabs = 5%nat ->
      length (List.filter (fun t => tab_pinned t) tabs) = 2%nat ->
      (forall t, In t tabs -> tab_pinned t = false -> shouldExclude s t = false) ->
      length (discards evs) = 3%nat
      /\ map fst (discards evs)
         = map tab_id (List.filter (fun t => negb (tab_pinned t)) tabs)).
Proof.
  intros tabs s r evs.
  assert (Hframe : forall w2 : World Host,
    host w2 = host w ->
    excludePinned (settings w2) = excludePinned s ->
    excludeAudible (settings w2) = excludeAudible s ->
    exists h' tl,
      r = (successes tl,
           mkWorld s (tabLastActive w) h'
             (console w ++ [EvQuery; EvLog LogForceStart] ++ tl))
      /\ forceDiscardInactiveTabs w2
         = (successes tl,
            mkWorld (settings w2) (tabLastActive w2) h'
              (console w2 ++ [EvQuery; EvLog LogForceStart] ++ tl))
      /\ map fst (discards tl)
         = map tab_id (List.filter (fun t => negb (shouldExclude s t)) tabs)).
  { intros w2 Hh Hp Ha. subst r. rewrite !force_unfold. rewrite Hh.
    destruct (force_loop_frame tabs 0
                (after_events w [EvQuery; EvLog LogForceStart])
                (after_events w2 [EvQuery; EvLog LogForceStart]))
      as (h' & tl & E1 & E2 & _ & _ & Hd); [by tidy .. |].
    exists h', tl. subst tabs. rewrite E1, E2. unfold after_events. tidy.
    by rewrite <- !app_assoc. }
  destruct (Hframe w eq_refl eq_refl eq_refl) as (h' & tl & Er & _ & Hd).
  assert (Hevs : evs = [EvQuery; EvLog LogForceStart] ++ tl).
  { subst evs. rewrite Er. by apply events_since_app. }
  assert (Hids : map fst (discards evs)
     = map tab_id (List.filter (fun t => negb (shouldExclude s t)) tabs)).
  { by rewrite Hevs. }
  split; [by rewrite Hevs, Er |].
  split; [done |].
  split; [by rewrite Hevs, Er |].
  split; [by rewrite Er |].
  split.
  - intros w2 Hh Hp Ha.
    destruct (Hframe w2 Hh Hp Ha) as (h2 & tl2 & Er2 & E2 & _).
    rewrite Er in Er2. injection Er2 as _ _ Hc.
    apply app_inv_head in Hc. injection Hc as <-.
    rewrite E2, Er. split; [done |]. cbn [snd].
    rewrite Hevs. by apply events_since_app.
  - intros Hpin Hlen Hcount Hfree.
    assert (Hfilter : List.filter (fun t => negb (shouldExclude s t)) tabs
                      = List.filter (fun t => negb (tab_pinned t)) tabs).
    { apply filter_ext_in. intros t Ht.
      destruct (tab_pinned t) eqn:Hp.
      - by rewrite shouldExclude_pinned.
      - by rewrite Hfree. }
    rewrite Hids, Hfilter. split; [| done].
    rewrite <- (length_map fst), Hids, Hfilter, length_map.
    pose proof (List.filter_length (fun t => tab_pinned t) tabs) as Hl.
    lia.
Qed.

Lemma events_since_refl (w : World Host) : events_since w w = [].
Proof. unfold events_since. by rewrite drop_all. Qed.

(** The whole scan as one run of events. *)
Lemma scan_run (now : Z) (w : World Host) :
  exists m' h' evs,
    checkAndDiscardInactiveTabs now w
      = (successes evs, mkWorld (settings w) m' h' (console w ++ evs))
    /\ failures_logged evs = true
    /\ successes evs <= Z.max 0 (pool (tabs_query (host w)) - minTabs (settings w))
    /\ (enabled (settings w) = false -> evs = []).
Proof.
  destruct (enabled (settings w)) eqn:He.
  - rewrite scan_enabled by done. cbv zeta.
    destruct (scan_loop_inv now (inactiveTimeout (settings w) * 1000)
                (pool (tabs_query (host w))) (tabs_query (host w)) 0
                (after_events w (scan_header (tabs_query (host w)))))
      as (k & c' & m' & h' & evs & -> & Hc & Hf & _ & Hb).
    tidy. exists m', h', (scan_header (tabs_query (host w)) ++ evs).
    rewrite app_assoc.
    unfold after_events in Hb; tidy.
    replace (successes (scan_header (tabs_query (host w)) ++ evs)) with c'
      by (cbn; lia).
    split; [done |]. split; [by cbn |]. split; [lia | congruence].
  - rewrite scan_disabled by done.
    exists (tabLastActive w), (host w), []. cbn. rewrite app_nil_r.
    destruct w; repeat split; (done || lia).
Qed.

Lemma overdue_idle (now timeoutMs : Z) (tab : Tab) (w : World Host) :
  overdue now timeoutMs (tabLastActive w !! tab_id tab) = true
  <-> now - fst (lastActive_or_backdate now timeoutMs tab w) > timeoutMs.
Proof.
  unfold overdue, lastActive_or_backdate, bind, tracker_get, tracker_set,
    console_log, emit, ret.
  destruct (falsy (tabLastActive w !! tab_id tab)); cbn [orb fst]; lia.
Qed.

Lemma scan_loop_settings (now timeoutMs n : Z) (tabs : list Tab) (c : Z)
    (w : World Host) :
  settings (snd (scan_loop now timeoutMs n tabs c w)) = settings w.
Proof.
  destruct (scan_loop_inv now timeoutMs n tabs c w)
    as (k & c' & m' & h' & evs & -> & _). done.
Qed.

(** C1: once a tab that passed the guards and is idle past the timeout
    meets [activeTabs.length - discardedCount <= minTabs], the scan ends
    there: its result is the count reached so far, the final world is the
    one that iteration leaves (the tabs after it are not examined), and the
    iteration made no discard call.  The count returned by a scan never
    exceeds [max 0 (activeTabs.length - minTabs)]. *)
Theorem floor_ends_the_scan (now : Z) (w0 : World Host) :
  let s := settings w0 in
  let tabs := tabs_query (host w0) in
  let timeoutMs := inactiveTimeout s * 1000 in
  let n := pool tabs in
  fst (checkAndDiscardInactiveTabs now w0) <= Z.max 0 (n - minTabs s)
  /\ forall (pre : list Tab) (tab : Tab) (post : list Tab) (c : Z) (w : World Host),
       enabled s = true ->
       tabs = pre ++ tab :: post ->
       scan_loop now timeoutMs n pre 0 (after_events w0 (scan_header tabs))
         = (Continue, c, w) ->
       scan_guards s tab = None ->
       now - fst (lastActive_or_backdate now timeoutMs tab w) > timeoutMs ->
       n - c <= minTabs s ->
       checkAndDiscardInactiveTabs now w0
         = (c, snd (scan_body now timeoutMs n tab c w))
       /\ fst (fst (scan_body now timeoutMs n tab c w)) = Break
       /\ discards (events_since w (snd (scan_body now timeoutMs n tab c w))) = [].
Proof.
  intros s tabs timeoutMs n. split.
  - destruct (scan_run now w0) as (m' & h' & evs & -> & _ & Hb & _). exact Hb.
  - intros pre tab post c w He Htabs Hpre Hg Hidle Hfloor.
    assert (Hs : settings w = s).
    { pose proof (scan_loop_settings now timeoutMs n pre 0
                    (after_events w0 (scan_header tabs))) as Hs.
      by rewrite Hpre in Hs. }
    apply overdue_idle in Hidle.
    rewrite <- Hs in Hg, Hfloor.
    pose proof (scan_body_overdue now timeoutMs n tab c w Hg Hidle) as Hbody.
    cbv zeta in Hbody.
    replace (n - c <=? minTabs (settings w)) with true in Hbody by lia.
    pose proof (scan_loop_app now timeoutMs n pre (tab :: post) 0
                  (after_events w0 (scan_header tabs))) as Happ.
    rewrite <- Htabs, Hpre in Happ.
    cbn [scan_loop] in Happ. unfold bind at 1 in Happ.
    rewrite Hbody in Happ. unfold ret in Happ.
    rewrite scan_enabled by done. cbv zeta.
    fold tabs. fold s. fold timeoutMs. fold n.
    rewrite Happ, Hbody.
    cbn [fst snd]. repeat split.
    erewrite events_since_app; [| reflexivity].
    rewrite !discards_app. by destruct (falsy _).
Qed.

Lemma scan_loop_console (now timeoutMs n : Z) (tabs : list Tab) (c : Z)
    (w : World Host) :
  exists evs, console (snd (scan_loop now timeoutMs n tabs c w)) = console w ++ evs.
Proof.
  destruct (scan_loop_inv now timeoutMs n tabs c w)
    as (k & c' & m' & h' & evs & -> & _). by exists evs.
Qed.

(** C5: when the scan reaches a tab that passes the guards and has no
    activity record, before the floor is met, that very iteration stores
    [now - (timeoutMs + 1000)] for the tab, finds it idle for
    [timeoutMs + 1000], calls the discard action on it and counts the call if
    it resolves; the scan then goes on with the tabs after it.  The discard
    call is part of the events of that same scan.  The clock, the timeout
    and the records are in the range where the script computes without
    rounding; far outside it [timeoutMs + 1000] is [timeoutMs] again and
    the tab is not found idle. *)
Theorem untracked_tab_is_discarded_at_once (now : Z) (w0 : World Host)
    (pre : list Tab) (tab : Tab) (post : list Tab) (c : Z) (w : World Host) :
  let s := settings w0 in
  let tabs := tabs_query (host w0) in
  let timeoutMs := inactiveTimeout s * 1000 in
  let n := pool tabs in
  exact_arithmetic now (inactiveTimeout s) (tabLastActive w0) ->
  enabled s = true ->
  tabs = pre ++ tab :: post ->
  scan_loop now timeoutMs n pre 0 (after_events w0 (scan_header tabs))
    = (Continue, c, w) ->
  scan_guards s tab = None ->
  tabLastActive w !! tab_id tab = None ->
  n - c > minTabs s ->
  let ok := fst (tabs_discard (tab_id tab) (host w)) in
  let w' :=
    mkWorld s
      (<[tab_id tab := now - (timeoutMs + 1000)]> (tabLastActive w))
      (snd (tabs_discard (tab_id tab) (host w)))
      (console w
       ++ [EvLog (LogStartedTracking (titlePrefix 25 tab));
           EvLog (LogInactive (titlePrefix 25 tab)
                    (round_div_1000 (timeoutMs + 1000)) (inactiveTimeout s))]
       ++ discard_lines tab ok) in
  scan_body now timeoutMs n tab c w = (Continue, if ok then c + 1 else c, w')
  /\ checkAndDiscardInactiveTabs now w0
     = (let r := scan_loop now timeoutMs n post (if ok then c + 1 else c) w' in
        (snd (fst r), snd r))
  /\ In (tab_id tab, ok)
       (discards (events_since w0 (snd (checkAndDiscardInactiveTabs now w0)))).
Proof.
  intros s tabs timeoutMs n _ He Htabs Hpre Hg Hnone Hfloor ok w'.
  assert (Hs : settings w = s).
  { pose proof (scan_loop_settings now timeoutMs n pre 0
                  (after_events w0 (scan_header tabs))) as Hs.
    by rewrite Hpre in Hs. }
  assert (Hbody : scan_body now timeoutMs n tab c w
                  = (Continue, if ok then c + 1 else c, w')).
  { rewrite <- Hs in Hg, Hfloor.
    assert (Ho : overdue now timeoutMs (tabLastActive w !! tab_id tab) = true)
      by (by rewrite Hnone).
    rewrite (scan_body_overdue _ _ _ _ _ _ Hg Ho). cbv zeta.
    replace (n - c <=? minTabs (settings w)) with false by lia.
    subst ok w'. rewrite Hnone, Hs. cbn [falsy app].
    replace (now - (now - (timeoutMs + 1000))) with (timeoutMs + 1000) by lia.
    by destruct (tabs_discard (tab_id tab) (host w)) as [b h']. }
  assert (Hscan : checkAndDiscardInactiveTabs now w0
     = (let r := scan_loop now timeoutMs n post (if ok then c + 1 else c) w' in
        (snd (fst r), snd r))).
  { pose proof (scan_loop_app now timeoutMs n pre (tab :: post) 0
                  (after_events w0 (scan_header tabs))) as Happ.
    rewrite <- Htabs, Hpre in Happ.
    cbn [scan_loop] in Happ. unfold bind at 1 in Happ.
    rewrite Hbody in Happ.
    rewrite scan_enabled by done. cbv zeta.
    fold tabs. fold s. fold timeoutMs. fold n.
    by rewrite Happ. }
  split; [done |]. split; [done |].
  rewrite Hscan. cbv zeta. cbn [snd].
  destruct (scan_loop_console now timeoutMs n post (if ok then c + 1 else c) w')
    as (evs2 & Hc2).
  destruct (scan_loop_console now timeoutMs n pre 0
              (after_events w0 (scan_header tabs))) as (evs1 & Hc1).
  rewrite Hpre in Hc1. cbn [snd] in Hc1.
  unfold after_events in Hc1. cbn [console] in Hc1.
  erewrite (events_since_app w0).
  2: { rewrite Hc2. subst w'. cbn [console]. rewrite Hc1.
       rewrite <- !app_assoc. reflexivity. }
  rewrite !discards_app. rewrite !in_app_iff.
  right. right. right. left. unfold discard_lines. cbn [discards]. by left.
Qed.

(** C10: the scan tells an untracked tab by the falsiness of the value it
    reads, so a stored timestamp of 0 counts as no record: the iteration
    runs exactly as it would with the record deleted, the record is
    overwritten with [now - (timeoutMs + 1000)], the tab is found idle past
    the timeout, and it is discarded unless the floor is met.  The clock and
    the timeout are in the range where the script computes the backdated
    timestamp and the idle time without rounding. *)
Theorem zero_timestamp_is_untracked (now timeoutMs n : Z) (tab : Tab)
    (rest : list Tab) (c : Z) (w : World Host) :
  exact_backdate now timeoutMs ->
  scan_guards (settings w) tab = None ->
  tabLastActive w !! tab_id tab = Some 0 ->
  let w_absent :=
    mkWorld (settings w) (delete (tab_id tab) (tabLastActive w)) (host w)
      (console w) in
  let w' := snd (scan_body now timeoutMs n tab c w) in
  scan_body now timeoutMs n tab c w = scan_body now timeoutMs n tab c w_absent
  /\ scan_loop now timeoutMs n (tab :: rest) c w
     = scan_loop now timeoutMs n (tab :: rest) c w_absent
  /\ tabLastActive w'
     = <[tab_id tab := now - (timeoutMs + 1000)]> (tabLastActive w)
  /\ now - fst (lastActive_or_backdate now timeoutMs tab w) > timeoutMs
  /\ (n - c > minTabs (settings w) ->
      discards (events_since w w')
      = [(tab_id tab, fst (tabs_discard (tab_id tab) (host w)))])
  /\ (n - c <= minTabs (settings w) ->
      fst (fst (scan_body now timeoutMs n tab c w)) = Break).
Proof.
  intros _ Hg Hzero w_absent w'.
  assert (Ho : overdue now timeoutMs (tabLastActive w !! tab_id tab) = true)
    by (by rewrite Hzero).
  assert (Hg2 : scan_guards (settings w_absent) tab = None) by done.
  assert (Ho2 : overdue now timeoutMs (tabLastActive w_absent !! tab_id tab) = true).
  { subst w_absent. cbn [tabLastActive]. by rewrite lookup_delete_eq. }
  assert (Hbody : scan_body now timeoutMs n tab c w
                  = scan_body now timeoutMs n tab c w_absent).
  { rewrite (scan_body_overdue _ _ _ _ _ _ Hg Ho).
    rewrite (scan_body_overdue _ _ _ _ _ _ Hg2 Ho2).
    subst w_absent. cbn [settings tabLastActive host console].
    rewrite lookup_delete_eq, Hzero. cbn [falsy Z.eqb].
    by rewrite insert_delete_eq. }
  split; [done |].
  split; [cbn [scan_loop]; unfold bind; by rewrite Hbody |].
  subst w'. rewrite (scan_body_overdue _ _ _ _ _ _ Hg Ho). cbv zeta.
  rewrite Hzero. cbn [falsy Z.eqb].
  split; [| split; [apply overdue_idle, Ho |]].
  - by destruct (_ <=? _); [| destruct (tabs_discard _ _)].
  - split; intros Hfloor.
    + replace (n - c <=? minTabs (settings w)) with false by lia.
      destruct (tabs_discard _ _) as [ok h']. cbn [snd fst].
      erewrite events_since_app; [| reflexivity].
      by destruct ok.
    + by replace (n - c <=? minTabs (settings w)) with true by lia.
Qed.

(** *** Cold start *)

Lemma track_all_seeds (now : Z) (tabs : list Tab) :
  forall w : World Host,
  exists m' evs,
    track_all now tabs w
      = (tt, mkWorld (settings w) m' (host w) (console w ++ evs))
    /\ discards evs = []
    /\ (forall id, tabLastActive w !! id = Some now -> m' !! id = Some now)
    /\ (forall t, In t tabs -> m' !! tab_id t = Some now).
Proof.
  induction tabs as [| tab rest IH]; intros w.
  - exists (tabLastActive w), []. cbn. rewrite app_nil_r.
    destruct w; repeat split; (done || auto).
  - cbn [track_all]. unfold bind.
    assert (Hset : (if tab_active tab then tracker_set (tab_id tab) now
                    else tracker_set (tab_id tab) now) w
                   = tracker_set (tab_id tab) now w) by (by destruct (tab_active tab)).
    rewrite Hset. unfold tracker_set, console_log, emit. tidy.
    edestruct (IH (mkWorld (settings w) (<[tab_id tab := now]> (tabLastActive w))
                     (host w)
                     (console w ++ [EvLog (LogTracking (tab_id tab)
                                              (titlePrefix 30 tab) (tab_active tab))])))
      as (m' & evs & -> & Hd & Hkeep & Hin).
    tidy. do 2 eexists. rewrite <- app_assoc.
    split; [reflexivity |]. split; [by cbn |]. split.
    + intros id Hid. apply Hkeep.
      destruct (decide (tab_id tab = id)) as [-> | Hne].
      * by rewrite lookup_insert_eq.
      * by rewrite lookup_insert_ne.
    + intros t [<- | Ht]; [| by apply Hin].
      apply Hkeep. by rewrite lookup_insert_eq.
Qed.

(** Tabs that were all active "just now" are only looked at. *)
Lemma scan_loop_all_fresh (now timeoutMs n : Z) (tabs : list Tab) :
  now <> 0 -> 0 <= timeoutMs ->
  forall (c : Z) (w : World Host),
    (forall t, In t tabs -> tabLastActive w !! tab_id t = Some now) ->
    exists evs,
      scan_loop now timeoutMs n tabs c w = (Continue, c, after_events w evs)
      /\ discards evs = [].
Proof.
  intros Hnow Ht. induction tabs as [| tab rest IH]; intros c w Hm.
  - exists []. by rewrite after_events_nil.
  - cbn [scan_loop]. unfold bind.
    assert (exists e1, scan_body now timeoutMs n tab c w
                       = (Continue, c, after_events w e1) /\ discards e1 = [])
      as (e1 & -> & Hd1).
    { destruct (scan_guards (settings w) tab) as [r |] eqn:Hg.
      - rewrite (scan_body_skip _ _ _ _ _ _ r Hg). eexists. split; [done |].
        by destruct r.
      - rewrite scan_body_fresh;
          [eexists; split; [reflexivity | done] | done |].
        rewrite (Hm tab) by (by left). unfold overdue. cbn [falsy default].
        apply orb_false_iff. unfold id. split; lia. }
    destruct (IH c (after_events w e1)) as (e2 & -> & Hd2).
    { intros t Hin. apply Hm. by right. }
    exists (e1 ++ e2). rewrite after_events_app, discards_app, Hd1, Hd2. done.
Qed.

(** X20: [initializeTabTracking] stores [now] for every tab of the
    enumeration, and when that reading of the clock is not 0, a scan at the
    same [now] with a positive timeout makes no discard call and returns 0,
    whatever the activity map held before. *)
Theorem cold_start_discards_nothing (now : Z) (w : World Host) :
  now <> 0 ->
  0 < inactiveTimeout (settings w) ->
  let w1 := snd (initializeTabTracking now w) in
  (forall t, In t (tabs_query (host w)) -> tabLastActive w1 !! tab_id t = Some now)
  /\ fst (checkAndDiscardInactiveTabs now w1) = 0
  /\ discards (events_since w1 (snd (checkAndDiscardInactiveTabs now w1))) = [].
Proof.
  intros Hnow Hpos w1.
  assert (exists m' evs,
            w1 = mkWorld (settings w) m' (host w) (console w ++ evs)
            /\ forall t, In t (tabs_query (host w)) -> m' !! tab_id t = Some now)
    as (m' & evs & Hw1 & Hseed).
  { subst w1. unfold initializeTabTracking, query, bind, emit. tidy.
    edestruct (track_all_seeds now (tabs_query (host w))
                 (mkWorld (settings w) (tabLastActive w) (host w)
                    (console w ++ [EvQuery]))) as (m' & evs & -> & _ & _ & Hin).
    tidy. do 2 eexists. rewrite <- app_assoc. split; [reflexivity | done]. }
  split; [by rewrite Hw1 |].
  destruct (enabled (settings w1)) eqn:He.
  - rewrite scan_enabled by done. cbv zeta.
    edestruct (scan_loop_all_fresh now (inactiveTimeout (settings w1) * 1000)
                 (pool (tabs_query (host w1))) (tabs_query (host w1)) Hnow)
      as (e2 & -> & Hd2).
    { rewrite Hw1. tidy. lia. }
    { intros t Hin. rewrite Hw1 in Hin |- *. tidy. unfold after_events. tidy.
      by apply Hseed. }
    cbn [fst snd]. split; [done |].
    rewrite after_events_app. unfold after_events.
    erewrite events_since_app; [| reflexivity].
    by rewrite discards_app, Hd2.
  - rewrite scan_disabled by done. cbn [fst snd].
    by rewrite events_since_refl.
Qed.

(** *** Scans in which every candidate is overdue *)

Lemma overdue_after_backdate (now timeoutMs : Z) (m : gmap Z Z) (i j : Z) :
  overdue now timeoutMs (m !! i) = true ->
  overdue now timeoutMs (<[j := now - (timeoutMs + 1000)]> m !! i) = true.
Proof.
  intros Ho. destruct (decide (j = i)) as [-> | Hne].
  - rewrite lookup_insert_eq. unfold overdue. cbn [falsy default from_option].
    unfold id. apply orb_true_iff. right. lia.
  - by rewrite lookup_insert_ne.
Qed.

(** With a host that accepts every discard, overdue candidates only, and
    room above the floor for all of them, the loop discards each tab that
    [shouldExclude] lets through. *)
Lemma scan_loop_all_overdue (now timeoutMs n : Z) (tabs : list Tab) :
  (forall id h, fst (tabs_discard id h) = true) ->
  forall (c : Z) (w : World Host),
    let cand := List.filter (fun t => negb (shouldExclude (settings w) t)) tabs in
    (forall t, In t cand ->
       overdue now timeoutMs (tabLastActive w !! tab_id t) = true) ->
    c + Z.of_nat (length cand) <= n - minTabs (settings w) ->
    exists m' h' evs,
      scan_loop now timeoutMs n tabs c w
        = (Continue, c + Z.of_nat (length cand),
           mkWorld (settings w) m' h' (console w ++ evs))
      /\ discards evs = map (fun t => (tab_id t, true)) cand.
Proof.
  intros Hwilling. induction tabs as [| tab rest IH]; intros c w cand Hover Hroom.
  - exists (tabLastActive w), (host w), []. subst cand. cbn.
    rewrite app_nil_r, Z.add_0_r. by destruct w.
  - subst cand. cbn [List.filter] in *. cbn [scan_loop]. unfold bind.
    destruct (shouldExclude (settings w) tab) eqn:Hx; cbn [negb] in *.
    + apply shouldExclude_site_true in Hx as [r Hr].
      rewrite (scan_body_skip _ _ _ _ _ _ r Hr).
      destruct (IH c (after_events w (skip_lines r tab))) as (m' & h' & evs & -> & Hd);
        [done .. |].
      unfold after_events; tidy. exists m', h', (skip_lines r tab ++ evs).
      rewrite app_assoc, discards_app, Hd. split; [done |]. by destruct r.
    + apply shouldExclude_guards_None in Hx.
      cbn [length] in Hroom.
      assert (Ho : overdue now timeoutMs (tabLastActive w !! tab_id tab) = true)
        by (apply Hover; by left).
      rewrite (scan_body_overdue _ _ _ _ _ _ Hx Ho). cbv zeta.
      replace (n - c <=? minTabs (settings w)) with false by lia.
      pose proof (Hwilling (tab_id tab) (host w)) as Hok.
      destruct (tabs_discard (tab_id tab) (host w)) as [ok h1].
      cbn [fst] in Hok. subst ok.
      match goal with
      | |- context [scan_loop _ _ _ rest (c + 1) ?w1] =>
          destruct (IH (c + 1) w1) as (m' & h' & evs & -> & Hd)
      end.
      { tidy. intros t Hin. specialize (Hover t (or_intror Hin)).
        destruct (falsy _); [by apply overdue_after_backdate | done]. }
      { tidy. lia. }
      tidy. do 3 eexists. rewrite <- !app_assoc.
      split; [f_equal; f_equal; cbn [length]; lia |].
      rewrite !discards_app, Hd. unfold discard_lines.
      by destruct (falsy _).
Qed.

Lemma filter_all (tabs : list Tab) (f : Tab -> bool) :
  Forall (fun t => f t = true) tabs -> List.filter f tabs = tabs.
Proof.
  induction 1 as [| t rest Ht _ IH]; [done |].
  cbn [List.filter]. by rewrite Ht, IH.
Qed.

(** C2 (scenario A): the scan is enabled, the timeout is 30 seconds and the
    floor is 1; the host enumerates four tabs, none discarded, exactly one
    active, the other three neither pinned nor audible nor on a protected
    scheme and each last active 40 seconds before [now]; the host accepts
    the discards.  Then the scan discards the three idle tabs, in the order
    of the enumeration, and returns 3. *)
Theorem scenario_A_three_discards (now : Z) (w : World Host) :
  let s := settings w in
  let tabs := tabs_query (host w) in
  (forall id h, fst (tabs_discard id h) = true) ->
  enabled s = true ->
  inactiveTimeout s = 30 ->
  minTabs s = 1 ->
  length tabs = 4%nat ->
  Forall (fun t => tab_discarded t = false) tabs ->
  length (List.filter (fun t => tab_active t) tabs) = 1%nat ->
  (forall t, In t tabs -> tab_active t = false ->
     tab_pinned t = false /\ tab_audible t = false
     /\ rule_holds s t RSystem = false
     /\ tabLastActive w !! tab_id t = Some (now - 40 * 1000)) ->
  fst (checkAndDiscardInactiveTabs now w) = 3
  /\ discards (events_since w (snd (checkAndDiscardInactiveTabs now w)))
     = map (fun t => (tab_id t, true))
         (List.filter (fun t => negb (tab_active t)) tabs).
Proof.
  intros s tabs Hwilling He Htimeout Hmin Hlen Hlive Hone Hidle.
  assert (Hpool : pool tabs = 4).
  { unfold pool. rewrite filter_all; [lia |].
    eapply Forall_impl; [exact Hlive |]. intros t Ht. cbn beta in *. by rewrite Ht. }
  assert (Hcand : List.filter (fun t => negb (shouldExclude s t)) tabs
                  = List.filter (fun t => negb (tab_active t)) tabs).
  { apply filter_ext_in. intros t Hin. unfold shouldExclude.
    destruct (tab_active t) eqn:Ha; [done |].
    destruct (Hidle t Hin Ha) as (Hp & Hau & Hsys & _).
    pose proof (proj1 (List.Forall_forall _ _) Hlive t Hin) as Hd.
    cbn beta in Hd. rewrite Hd, Hp, Hau, !andb_false_r.
    unfold rule_holds, protected_schemes in Hsys. cbn [existsb] in Hsys.
    rewrite orb_false_r, orb_assoc in Hsys. by rewrite Hsys. }
  assert (Hthree : length (List.filter (fun t => negb (tab_active t)) tabs) = 3%nat).
  { pose proof (List.filter_length (fun t => tab_active t) tabs). lia. }
  rewrite scan_enabled by done. cbv zeta. fold tabs. fold s.
  destruct (scan_loop_all_overdue now (inactiveTimeout s * 1000) (pool tabs) tabs
              Hwilling 0 (after_events w (scan_header tabs)))
    as (m' & h' & evs & -> & Hd).
  - unfold after_events. tidy. fold s. rewrite Hcand.
    intros t Hin. apply filter_In in Hin as [Hin Ha].
    destruct (Hidle t Hin) as (_ & _ & _ & ->); [by destruct (tab_active t) |].
    unfold overdue. cbn [falsy default from_option]. unfold id.
    apply orb_true_iff. right. lia.
  - unfold after_events. tidy. fold s. rewrite Hcand, Hthree, Hpool, Hmin. lia.
  - revert Hd. unfold after_events. tidy. fold s. rewrite Hcand, Hthree.
    intros Hd. split; [done |].
    rewrite <- app_assoc.
    erewrite events_since_app; [| reflexivity].
    by rewrite discards_app, Hd.
Qed.

End Properties.

(** ** The theorems at work on the test data *)

Lemma scan_disabled_is_noop_witness :
  enabled (settings world_off) = false
  /\ @checkAndDiscardInactiveTabs _ willing_host clock world_off = (0, world_off).
Proof.
  split; [reflexivity |].
  apply (@scan_disabled_is_noop _ willing_host clock world_off). reflexivity.
Defined.

Lemma shouldExclude_first_match_witness :
  tab_active (web_tab 1 true false) = true
  /\ shouldExclude DEFAULT_SETTINGS (web_tab 1 true false) = true.
Proof.
  split; [reflexivity |].
  apply (proj1 (proj2 (proj2
           (shouldExclude_first_match DEFAULT_SETTINGS (web_tab 1 true false))))).
  reflexivity.
Defined.

Lemma scan_guards_match_shouldExclude_witness :
  shouldExclude DEFAULT_SETTINGS (web_tab 1 true false) = true
  /\ exists r,
      scan_guards DEFAULT_SETTINGS (web_tab 1 true false) = Some r
      /\ @scan_body _ willing_host clock 30000 4 (web_tab 1 true false) 0 world_A
         = (Continue, 0, after_events world_A (skip_lines r (web_tab 1 true false))).
Proof.
  split; [reflexivity |].
  apply (proj2 (proj2 (scan_guards_match_shouldExclude (H := willing_host)
                         DEFAULT_SETTINGS (web_tab 1 true false)))
           clock 30000 4 0 world_A); reflexivity.
Defined.

Lemma floor_ends_the_scan_witness :
  scan_guards (settings world_floor) (web_tab 3 false false) = None
  /\ pool tabs_A - 1 <= minTabs (settings world_floor)
  /\ @checkAndDiscardInactiveTabs _ willing_host clock world_floor
     = (1, snd (@scan_body _ willing_host clock 30000 4 (web_tab 3 false false) 1
                  (snd (@scan_loop _ willing_host clock 30000 4
                          [web_tab 1 true false; web_tab 2 false false] 0
                          (after_events world_floor (scan_header tabs_A)))))).
Proof.
  split; [reflexivity |]. split; [vm_compute; discriminate |].
  apply (proj2 (@floor_ends_the_scan _ willing_host clock world_floor)
           [web_tab 1 true false; web_tab 2 false false]
           (web_tab 3 false false) [web_tab 4 false false] 1
           (snd (@scan_loop _ willing_host clock 30000 4
                   [web_tab 1 true false; web_tab 2 false false] 0
                   (after_events world_floor (scan_header tabs_A))))).
  - reflexivity.
  - reflexivity.
  - vm_compute. reflexivity.
  - reflexivity.
  - vm_compute. reflexivity.
  - vm_compute. discriminate.
Defined.

Lemma scenario_A_three_discards_witness :
  fst (@checkAndDiscardInactiveTabs _ willing_host clock world_A) = 3
  /\ discards (events_since world_A
                (snd (@checkAndDiscardInactiveTabs _ willing_host clock world_A)))
     = [(2, true); (3, true); (4, true)].
Proof.
  apply (@scenario_A_three_discards _ willing_host clock world_A).
  - intros id h. reflexivity.
  - reflexivity.
  - reflexivity.
  - reflexivity.
  - reflexivity.
  - repeat constructor.
  - reflexivity.
  - intros t [<- | [<- | [<- | [<- | []]]]] Ha; try discriminate Ha;
      repeat split; vm_compute; reflexivity.
Defined.

Lemma untracked_tab_is_discarded_at_once_witness :
  exact_arithmetic clock (inactiveTimeout (settings world_untracked))
    (tabLastActive world_untracked)
  /\ tabLastActive world_untracked !! 2 = None
  /\ In (2, true)
       (discards (events_since world_untracked
          (snd (@checkAndDiscardInactiveTabs _ willing_host clock world_untracked)))).
Proof.
  assert (Hexact : exact_arithmetic clock
                     (inactiveTimeout (settings world_untracked))
                     (tabLastActive world_untracked)).
  { unfold exact_arithmetic, exact_backdate, safe.
    split; [| split; [repeat split |]];
      [vm_compute; discriminate .. | apply map_Forall_empty]. }
  split; [exact Hexact |]. split; [reflexivity |].
  apply (@untracked_tab_is_discarded_at_once _ willing_host clock world_untracked
           [web_tab 1 true false] (web_tab 2 false false)
           [web_tab 3 false false; web_tab 4 false false] 0
           (after_events world_untracked (scan_header tabs_A))).
  - exact Hexact.
  - reflexivity.
  - reflexivity.
  - reflexivity.
  - reflexivity.
  - reflexivity.
  - vm_compute. reflexivity.
Defined.

Lemma force_discards_every_unexcluded_witness :
  length (List.filter (fun t => tab_pinned t) tabs_B) = 2%nat
  /\ length (discards (events_since world_B
                (snd (@forceDiscardInactiveTabs _ willing_host world_B)))) = 3%nat
  /\ map fst (discards (events_since world_B
                (snd (@forceDiscardInactiveTabs _ willing_host world_B))))
     = [2; 4; 5].
Proof.
  split; [reflexivity |].
  apply (proj2 (proj2 (proj2 (proj2 (proj2
           (@force_discards_every_unexcluded _ willing_host world_B)))))).
  - reflexivity.
  - reflexivity.
  - reflexivity.
  - intros t [<- | [<- | [<- | [<- | [<- | []]]]]] Hp; try discriminate Hp;
      reflexivity.
Defined.

Lemma cold_start_discards_nothing_witness :
  clock <> 0
  /\ 0 < inactiveTimeout (settings world_A)
  /\ fst (@checkAndDiscardInactiveTabs _ willing_host clock
            (snd (@initializeTabTracking _ willing_host clock world_A))) = 0.
Proof.
  split; [discriminate |]. split; [reflexivity |].
  apply (@cold_start_discards_nothing _ willing_host clock world_A).
  - discriminate.
  - reflexivity.
Defined.

Lemma zero_timestamp_is_untracked_witness :
  exact_backdate clock 30000
  /\ tabLastActive world_zero !! 2 = Some 0
  /\ tabLastActive
       (snd (@scan_body _ willing_host clock 30000 4 (web_tab 2 false false) 0
               world_zero))
     = <[2 := clock - (30000 + 1000)]> (tabLastActive world_zero).
Proof.
  assert (Hexact : exact_backdate clock 30000)
    by (unfold exact_backdate, safe; repeat split; vm_compute; discriminate).
  split; [exact Hexact |]. split; [reflexivity |].
  apply (@zero_timestamp_is_untracked _ willing_host clock 30000 4
           (web_tab 2 false false) [] 0 world_zero);
    [exact Hexact | reflexivity | reflexivity].
Defined.

(** C9: a scan right after the cold start, at the same reading of the
    clock and with a positive timeout, is meant to discard nothing.  At the
    time origin it does not: the cold start stores [now = 0], which the
    test [!lastActive] of the scan reads as "not tracked"; with the default
    settings and the four tabs of scenario A the three tabs without the
    focus are backdated and discarded and the scan returns 3. *)
Lemma cold_start_at_time_zero_discards :
  0 < inactiveTimeout (settings world_A)
  /\ fst (@checkAndDiscardInactiveTabs _ willing_host 0
            (snd (@initializeTabTracking _ willing_host 0 world_A))) = 3
  /\ discards
       (events_since (snd (@initializeTabTracking _ willing_host 0 world_A))
          (snd (@checkAndDiscardInactiveTabs _ willing_host 0
                  (snd (@initializeTabTracking _ willing_host 0 world_A)))))
     = [(2, true); (3, true); (4, true)].
Proof. repeat split; vm_compute; reflexivity. Qed.

(** ** Further properties of the scan *)

Section ScanProperties.

Context {Host : Type} `{HostAPI Host}.

Ltac proj := cbn [settings tabLastActive host console fst snd] in *.

(** One turn of the loop, by cases. *)
Lemma scan_loop_step (now timeoutMs n : Z) (tab : Tab) (rest : list Tab)
    (c : Z) (w : World Host) :
  scan_loop now timeoutMs n (tab :: rest) c w =
    match scan_guards (settings w) tab with
    | Some r => scan_loop now timeoutMs n rest c (after_events w (skip_lines r tab))
    | None =>
        let v := tabLastActive w !! tab_id tab in
        let lines := lookup_lines now timeoutMs (settings w) tab v in
        let m1 := tracker_after_lookup now timeoutMs tab (tabLastActive w) in
        if overdue now timeoutMs v then
          if n - c <=? minTabs (settings w) then
            (Break, c,
             mkWorld (settings w) m1 (host w)
               (console w ++ lines ++ [EvLog (LogKeepingMinimum (minTabs (settings w)))]))
          else
            let (ok, h') := tabs_discard (tab_id tab) (host w) in
            scan_loop now timeoutMs n rest (if ok then c + 1 else c)
              (mkWorld (settings w) m1 h' (console w ++ lines ++ discard_lines tab ok))
        else
          scan_loop now timeoutMs n rest c (after_events w lines)
    end.
Proof.
  cbn [scan_loop]. unfold bind at 1.
  destruct (scan_guards (settings w) tab) as [r |] eqn:Hg.
  - rewrite (scan_body_skip _ _ _ _ _ _ r Hg). done.
  - cbv zeta. destruct (overdue now timeoutMs (tabLastActive w !! tab_id tab)) eqn:Ho.
    + rewrite (scan_body_overdue _ _ _ _ _ _ Hg Ho). cbv zeta.
      unfold lookup_lines, lastActive_after_lookup, tracker_after_lookup.
      destruct (falsy (tabLastActive w !! tab_id tab));
        (destruct (n - c <=? minTabs (settings w)); [done |]);
        by destruct (tabs_discard _ _) as [ok h'].
    + rewrite (scan_body_fresh _ _ _ _ _ _ Hg Ho).
      unfold lookup_lines, lastActive_after_lookup.
      unfold overdue in Ho. apply orb_false_iff in Ho as [-> _]. done.
Qed.

Lemma candidates_cons (s : Settings) (tab : Tab) (rest : list Tab) :
  candidates s (tab :: rest)
  = if shouldExclude s tab then candidates s rest else tab :: candidates s rest.
Proof. unfold candidates. cbn [List.filter]. by destruct (shouldExclude s tab). Qed.

Lemma scan_guards_Some (s : Settings) (tab : Tab) (r : rule) :
  scan_guards s tab = Some r -> shouldExclude s tab = true.
Proof.
  intros Hg. apply shouldExclude_site_true. rewrite <- scan_guards_site, Hg. by eexists.
Qed.

Lemma fresh_not_overdue (now timeoutMs t : Z) :
  t <> 0 -> now - t <= timeoutMs -> overdue now timeoutMs (Some t) = false.
Proof.
  intros Ht Hle. unfold overdue. cbn [falsy default from_option]. unfold id.
  apply orb_false_iff. split; lia.
Qed.

Lemma tracker_after_lookup_other (now timeoutMs : Z) (tab : Tab) (m : gmap Z Z) (id : Z) :
  tab_id tab <> id ->
  tracker_after_lookup now timeoutMs tab m !! id = m !! id.
Proof.
  intros Hne. unfold tracker_after_lookup.
  destruct (falsy _); [by rewrite lookup_insert_ne | done].
Qed.

Lemma tracker_after_lookup_self (now timeoutMs : Z) (tab : Tab) (m : gmap Z Z) :
  tracker_after_lookup now timeoutMs tab m !! tab_id tab
  = if falsy (m !! tab_id tab) then Some (now - (timeoutMs + 1000))
    else m !! tab_id tab.
Proof.
  unfold tracker_after_lookup.
  destruct (falsy _); [by rewrite lookup_insert_eq | done].
Qed.

Lemma discards_lookup_lines (now timeoutMs : Z) (s : Settings) (tab : Tab)
    (v : option Z) :
  discards (lookup_lines now timeoutMs s tab v) = [].
Proof. unfold lookup_lines. by destruct (falsy v). Qed.

Lemma discards_discard_lines (tab : Tab) (ok : bool) :
  discards (discard_lines tab ok) = [(tab_id tab, ok)].
Proof. by destruct ok. Qed.

(** What a run of the loop keeps, whatever the host answers. *)
Lemma scan_loop_facts (now timeoutMs n : Z) (tabs : list Tab) :
  forall (c : Z) (w : World Host),
  exists k c' m' h' evs,
    scan_loop now timeoutMs n tabs c w
      = (k, c', mkWorld (settings w) m' h' (console w ++ evs))
    /\ sublist (map fst (discards evs))
         (map tab_id (candidates (settings w) tabs))
    /\ (forall id,
          m' !! id = tabLastActive w !! id
          \/ (falsy (tabLastActive w !! id) = true
              /\ m' !! id = Some (now - (timeoutMs + 1000))
              /\ exists tab, In tab (candidates (settings w) tabs) /\ tab_id tab = id))
    /\ (k = Continue ->
        forall tab, In tab (candidates (settings w) tabs) ->
          is_Some (m' !! tab_id tab))
    /\ (k = Break -> In (EvLog (LogKeepingMinimum (minTabs (settings w)))) evs)
    /\ (n - c <= minTabs (settings w) -> discards evs = [] /\ c' = c)
    /\ (forall id t,
          tabLastActive w !! id = Some t -> t <> 0 -> now - t <= timeoutMs ->
          forall ok, ~ In (id, ok) (discards evs)).
Proof.
  induction tabs as [| tab rest IH]; intros c w.
  - exists Continue, c, (tabLastActive w), (host w), [].
    cbn [scan_loop]. unfold ret. rewrite app_nil_r.
    split; [by destruct w |]. cbn.
    split; [constructor |]. split; [by left |].
    split; [by intros _ tab [] |]. split; [done |]. split; [done |].
    by intros id t _ _ _ ok [].
  - rewrite scan_loop_step, candidates_cons.
    destruct (scan_guards (settings w) tab) as [r |] eqn:Hg.
    + rewrite (scan_guards_Some _ _ _ Hg).
      destruct (IH c (after_events w (skip_lines r tab)))
        as (k & c' & m' & h' & evs & -> & F1 & F2 & F3 & F4 & F5 & F6).
      unfold after_events in *. proj.
      exists k, c', m', h', (skip_lines r tab ++ evs).
      rewrite app_assoc, discards_app.
      replace (discards (skip_lines r tab)) with (@nil (Z * bool)) by (by destruct r).
      cbn [app]. repeat split; try done.
      * intros Hk. apply in_or_app. right. by apply F4.
      * by apply F5.
      * by apply F5.
    + apply shouldExclude_guards_None in Hg as Hx. rewrite Hx. cbv zeta.
      destruct (overdue now timeoutMs (tabLastActive w !! tab_id tab)) eqn:Ho.
      * destruct (n - c <=? minTabs (settings w)) eqn:Hfloor.
        -- do 5 eexists. split; [reflexivity |].
           rewrite discards_app, discards_lookup_lines. cbn [app discards map].
           split; [apply sublist_nil_l |]. split.
           { intros id. destruct (decide (tab_id tab = id)) as [<- | Hne].
             - rewrite tracker_after_lookup_self.
               destruct (falsy _) eqn:Hf; [| by left].
               right. repeat split; try done. exists tab. split; [by left | done].
             - left. by apply tracker_after_lookup_other. }
           split; [done |].
           split; [intros _; apply in_or_app; right; by left |].
           split; [done |]. by intros id t _ _ _ ok [].
        -- destruct (tabs_discard (tab_id tab) (host w)) as [ok h1].
           match goal with
           | |- context [scan_loop _ _ _ rest ?c1 ?w1] =>
               destruct (IH c1 w1)
                 as (k & c' & m' & h' & evs & -> & F1 & F2 & F3 & F4 & F5 & F6)
           end.
           proj. do 5 eexists. rewrite <- !app_assoc. split; [reflexivity |].
           rewrite !discards_app, discards_lookup_lines, discards_discard_lines.
           cbn [app map fst].
           split; [by apply sublist_skip |]. split.
           { intros id. destruct (F2 id) as [-> | (Hf & -> & tab' & Hin & Hid)].
             - destruct (decide (tab_id tab = id)) as [<- | Hne].
               + rewrite tracker_after_lookup_self.
                 destruct (falsy _) eqn:Hf; [| by left].
                 right. repeat split; try done. exists tab. split; [by left | done].
               + left. by apply tracker_after_lookup_other.
             - right. destruct (decide (tab_id tab = id)) as [<- | Hne].
               + rewrite tracker_after_lookup_self in Hf.
                 destruct (falsy (tabLastActive w !! tab_id tab)) eqn:Hf0.
                 * repeat split; try done. exists tab. split; [by left | done].
                 * rewrite Hf0 in Hf. discriminate.
               + rewrite tracker_after_lookup_other in Hf by done.
                 repeat split; try done. exists tab'. split; [by right | done]. }
           split.
           { intros Hk tab' [<- | Hin]; [| by apply F3].
             destruct (F2 (tab_id tab)) as [-> | (_ & -> & _)]; [| by eexists].
             rewrite tracker_after_lookup_self.
             destruct (falsy (tabLastActive w !! tab_id tab)) eqn:Hf; [by eexists |].
             destruct (tabLastActive w !! tab_id tab); [by eexists | done]. }
           split; [intros Hk; apply in_or_app; right; apply in_or_app; right;
                   by apply F4 |].
           split; [intros Hle; lia |].
           intros id t Hid Ht Hle ok' [Heq | Hin].
           { injection Heq as Heq _. subst id. rewrite Hid in Ho.
             by rewrite fresh_not_overdue in Ho. }
           { destruct (decide (tab_id tab = id)) as [<- | Hne].
             - rewrite Hid in Ho. by rewrite fresh_not_overdue in Ho.
             - eapply (F6 id t); [| done | done | exact Hin].
               by rewrite tracker_after_lookup_other. }
      * destruct (IH c (after_events w
                    (lookup_lines now timeoutMs (settings w) tab
                       (tabLastActive w !! tab_id tab))))
          as (k & c' & m' & h' & evs & -> & F1 & F2 & F3 & F4 & F5 & F6).
        unfold after_events in *. proj.
        do 5 eexists. rewrite <- !app_assoc. split; [reflexivity |].
        rewrite !discards_app, discards_lookup_lines. cbn [app map].
        split; [by apply sublist_cons |]. split.
        { intros id. destruct (F2 id) as [-> | (Hf & -> & tab' & Hin & Hid)];
            [by left |].
          right. repeat split; try done. exists tab'. split; [by right | done]. }
        split.
        { intros Hk tab' [<- | Hin]; [| by apply F3].
          unfold overdue in Ho. apply orb_false_iff in Ho as [Hf _].
          destruct (F2 (tab_id tab)) as [-> | (_ & -> & _)]; [| by eexists].
          destruct (tabLastActive w !! tab_id tab); [by eexists | done]. }
        split; [intros Hk; apply in_or_app; right; by apply F4 |].
        split; [done |]. done.
Qed.

(** The facts of the loop, for a whole scan. *)
Lemma scan_facts (now : Z) (w : World Host) :
  let s := settings w in
  let tabs := tabs_query (host w) in
  let timeoutMs := inactiveTimeout s * 1000 in
  exists c' m' h' evs,
    checkAndDiscardInactiveTabs now w
      = (c', mkWorld s m' h' (console w ++ evs))
    /\ sublist (map fst (discards evs)) (map tab_id (candidates s tabs))
    /\ (forall id,
          m' !! id = tabLastActive w !! id
          \/ (falsy (tabLastActive w !! id) = true
              /\ m' !! id = Some (now - (timeoutMs + 1000))
              /\ exists tab, In tab (candidates s tabs) /\ tab_id tab = id))
    /\ (enabled s = true ->
        In (EvLog (LogKeepingMinimum (minTabs s))) evs
        \/ forall tab, In tab (candidates s tabs) -> is_Some (m' !! tab_id tab))
    /\ (pool tabs <= minTabs s -> discards evs = [] /\ c' = 0)
    /\ (forall id t,
          tabLastActive w !! id = Some t -> t <> 0 -> now - t <= timeoutMs ->
          forall ok, ~ In (id, ok) (discards evs)).
Proof.
  intros s tabs timeoutMs. destruct (enabled s) eqn:He.
  - rewrite scan_enabled by done. cbv zeta. fold s tabs timeoutMs.
    destruct (scan_loop_facts now timeoutMs (pool tabs) tabs 0
                (after_events w (scan_header tabs)))
      as (k & c' & m' & h' & evs & -> & F1 & F2 & F3 & F4 & F5 & F6).
    unfold after_events in *. proj. fold s in F1, F2, F3, F4, F5.
    exists c', m', h', (scan_header tabs ++ evs).
    rewrite app_assoc. split; [done |].
    rewrite discards_app. cbn [scan_header discards app].
    split; [done |]. split; [done |].
    split.
    { intros _. destruct k.
      - right. by apply F3.
      - left. right. right. by apply F4. }
    split; [intros Hle; apply F5; lia | done].
  - rewrite scan_disabled by done.
    exists 0, (tabLastActive w), (host w), []. rewrite app_nil_r.
    split; [by destruct w |]. cbn [discards map].
    split; [apply sublist_nil_l |]. split; [by left |].
    split; [done |]. split; [done |]. by intros id t _ _ _ ok [].
Qed.

Lemma shouldExclude_false_fields (s : Settings) (tab : Tab) :
  shouldExclude s tab = false ->
  tab_active tab = false /\ tab_discarded tab = false
  /\ (excludePinned s = true -> tab_pinned tab = false)
  /\ (excludeAudible s = true -> tab_audible tab = false)
  /\ rule_holds s tab RSystem = false.
Proof.
  unfold shouldExclude, rule_holds, protected_schemes. cbn [existsb].
  destruct (tab_active tab); [done |]. destruct (tab_discarded tab); [done |].
  destruct (excludePinned s), (tab_pinned tab); cbn [andb]; try done;
    destruct (excludeAudible s), (tab_audible tab); cbn [andb]; try done;
    destruct (startsWith (tab_url tab) "about:"),
      (startsWith (tab_url tab) "moz-extension:"),
      (startsWith (tab_url tab) "chrome:"); done.
Qed.

Lemma candidates_spec (s : Settings) (tabs : list Tab) (tab : Tab) :
  In tab (candidates s tabs) <-> In tab tabs /\ shouldExclude s tab = false.
Proof.
  unfold candidates. rewrite filter_In.
  destruct (shouldExclude s tab); cbn [negb]; intuition congruence.
Qed.

(** X1: a scan calls the discard action only on tabs of the enumeration that
    [shouldExclude] lets through, and in the order of the enumeration, each
    enumerated tab at most once: the ids of the discard calls are a
    subsequence of the ids of those tabs.  So a discard call never falls on
    the focused tab, on a discarded tab, on a pinned or audible tab when the
    setting excludes them, or on a page with a protected scheme. *)
Theorem scan_discards_only_candidates (now : Z) (w : World Host) :
  let s := settings w in
  let tabs := tabs_query (host w) in
  let evs := events_since w (snd (checkAndDiscardInactiveTabs now w)) in
  sublist (map fst (discards evs)) (map tab_id (candidates s tabs))
  /\ forall id ok, In (id, ok) (discards evs) ->
       exists tab, In tab tabs /\ tab_id tab = id
         /\ tab_active tab = false /\ tab_discarded tab = false
         /\ (excludePinned s = true -> tab_pinned tab = false)
         /\ (excludeAudible s = true -> tab_audible tab = false)
         /\ rule_holds s tab RSystem = false.
Proof.
  intros s tabs evs.
  destruct (scan_facts now w) as (c' & m' & h' & evs' & Hr & F1 & _).
  assert (Hevs : evs = evs').
  { subst evs. rewrite Hr. by apply events_since_app. }
  rewrite Hevs. split; [done |].
  intros id ok Hin.
  assert (Hid : In id (map tab_id (candidates s tabs))).
  { apply list_elem_of_In. eapply elem_of_sublist; [| exact F1].
    apply list_elem_of_In. apply in_map_iff. by exists (id, ok). }
  apply in_map_iff in Hid as (tab & <- & Hc).
  apply candidates_spec in Hc as [Hin' Hx].
  exists tab. split; [done |]. split; [done |].
  by apply shouldExclude_false_fields.
Qed.

(** X2: a tab whose record is not 0 and not older than the timeout is left
    alone by a scan: no discard call is made with its id and its record is
    the same afterwards, wherever it stands in the enumeration. *)
Theorem scan_spares_fresh_tab (now : Z) (w : World Host) (id t : Z) :
  tabLastActive w !! id = Some t ->
  t <> 0 ->
  now - t <= inactiveTimeout (settings w) * 1000 ->
  let r := checkAndDiscardInactiveTabs now w in
  tabLastActive (snd r) !! id = Some t
  /\ forall ok, ~ In (id, ok) (discards (events_since w (snd r))).
Proof.
  intros Hid Ht Hle r.
  destruct (scan_facts now w) as (c' & m' & h' & evs & Hr & _ & F2 & _ & _ & F6).
  subst r. rewrite Hr. proj. rewrite (events_since_app w _ evs) by done.
  split; [| by apply (F6 id t)].
  destruct (F2 id) as [-> | (Hf & _)]; [done |].
  rewrite Hid in Hf. cbn [falsy] in Hf. lia.
Qed.

(** X3: in the range where the script computes without rounding, a scan
    never deletes a record, and it changes a record only by backdating it:
    after the scan each id has the record it had, except that ids of
    enumerated tabs that [shouldExclude] lets through and whose record was
    missing or 0 may now hold [now - (timeoutMs + 1000)].  A record that the
    scan changed is [now] itself exactly when the timeout is -1 second; with
    a timeout that is not negative it lies more than the timeout before
    [now]. *)
Theorem scan_only_backdates (now : Z) (w : World Host) :
  let s := settings w in
  let timeoutMs := inactiveTimeout s * 1000 in
  let m' := tabLastActive (snd (checkAndDiscardInactiveTabs now w)) in
  exact_arithmetic now (inactiveTimeout s) (tabLastActive w) ->
  (forall id,
     m' !! id = tabLastActive w !! id
     \/ (falsy (tabLastActive w !! id) = true
         /\ m' !! id = Some (now - (timeoutMs + 1000))
         /\ exists tab, In tab (tabs_query (host w)) /\ tab_id tab = id
              /\ shouldExclude s tab = false))
  /\ (forall id, is_Some (tabLastActive w !! id) -> is_Some (m' !! id))
  /\ (forall id v,
        m' !! id = Some v -> tabLastActive w !! id <> Some v ->
        v = now - (timeoutMs + 1000)
        /\ (v = now <-> inactiveTimeout s = -1)
        /\ (0 <= inactiveTimeout s -> now - v > timeoutMs)).
Proof.
  intros s timeoutMs m' _.
  destruct (scan_facts now w) as (c' & m1 & h' & evs & Hr & _ & F2 & _).
  subst m'. rewrite Hr. proj.
  assert (Hall : forall id,
     m1 !! id = tabLastActive w !! id
     \/ (falsy (tabLastActive w !! id) = true
         /\ m1 !! id = Some (now - (timeoutMs + 1000))
         /\ exists tab, In tab (tabs_query (host w)) /\ tab_id tab = id
              /\ shouldExclude s tab = false)).
  { intros id. destruct (F2 id) as [-> | (Hf & Hm & tab & Hc & Hid)]; [by left |].
    right. apply candidates_spec in Hc as [Hin Hx].
    repeat split; try done. by exists tab. }
  split; [done |]. split.
  - intros id Hsome.
    destruct (Hall id) as [-> | (_ & -> & _)]; [done | by eexists].
  - intros id v Hv Hchanged.
    destruct (Hall id) as [Hsame | (_ & Hnew & _)].
    + rewrite Hsame in Hv. by destruct Hchanged.
    + rewrite Hnew in Hv. injection Hv as <-. subst timeoutMs.
      split; [done |]. split; [split; lia | lia].
Qed.

(** X4: when [minTabs] is at least the number of tabs that are not
    discarded, a scan makes no discard call at all and returns 0. *)
Theorem scan_floor_at_pool_discards_nothing (now : Z) (w : World Host) :
  pool (tabs_query (host w)) <= minTabs (settings w) ->
  let r := checkAndDiscardInactiveTabs now w in
  discards (events_since w (snd r)) = [] /\ fst r = 0.
Proof.
  intros Hle r.
  destruct (scan_facts now w) as (c' & m' & h' & evs & Hr & _ & _ & _ & F5 & _).
  subst r. rewrite Hr. proj. rewrite (events_since_app w _ evs) by done.
  by apply F5.
Qed.

(** X5: an enabled scan that does not stop at the floor (it writes the
    "keeping minimum" line when it does) leaves a record for every
    enumerated tab that [shouldExclude] lets through. *)
Theorem scan_tracks_every_candidate (now : Z) (w : World Host) :
  enabled (settings w) = true ->
  let s := settings w in
  let r := checkAndDiscardInactiveTabs now w in
  In (EvLog (LogKeepingMinimum (minTabs s))) (events_since w (snd r))
  \/ forall tab, In tab (tabs_query (host w)) -> shouldExclude s tab = false ->
       is_Some (tabLastActive (snd r) !! tab_id tab).
Proof.
  intros He s r.
  destruct (scan_facts now w) as (c' & m' & h' & evs & Hr & _ & _ & F3 & _).
  subst r. rewrite Hr. proj. rewrite (events_since_app w _ evs) by done.
  destruct (F3 He) as [Hk | Hall]; [by left |].
  right. intros tab Hin Hx. apply Hall. by apply candidates_spec.
Qed.

Lemma overdue_after_lookup (now timeoutMs : Z) (tab : Tab) (m : gmap Z Z) (i : Z) :
  overdue now timeoutMs (m !! i) = true ->
  overdue now timeoutMs (tracker_after_lookup now timeoutMs tab m !! i) = true.
Proof.
  intros Ho. unfold tracker_after_lookup.
  destruct (falsy _); [by apply overdue_after_backdate | done].
Qed.

(** With a host that accepts every discard and overdue candidates only, the
    loop discards candidates in order until the floor stops it. *)
Lemma scan_loop_budget (now timeoutMs n : Z) (tabs : list Tab) :
  (forall id h, fst (tabs_discard id h) = true) ->
  forall (c : Z) (w : World Host),
    let cand := candidates (settings w) tabs in
    let budget :=
      Z.min (Z.of_nat (length cand)) (Z.max 0 (n - minTabs (settings w) - c)) in
    (forall t, In t cand ->
       overdue now timeoutMs (tabLastActive w !! tab_id t) = true) ->
    exists k m' h' evs,
      scan_loop now timeoutMs n tabs c w
        = (k, c + budget, mkWorld (settings w) m' h' (console w ++ evs))
      /\ discards evs
         = map (fun t => (tab_id t, true)) (take (Z.to_nat budget) cand).
Proof.
  intros Hwilling. induction tabs as [| tab rest IH]; intros c w cand budget Hover.
  - exists Continue, (tabLastActive w), (host w), []. subst budget cand.
    cbn [scan_loop candidates List.filter length]. unfold ret.
    rewrite app_nil_r. replace (Z.min _ _) with 0 by lia.
    rewrite Z.add_0_r. by destruct w.
  - subst budget cand. rewrite scan_loop_step. rewrite candidates_cons in *.
    destruct (scan_guards (settings w) tab) as [r |] eqn:Hg.
    + rewrite (scan_guards_Some _ _ _ Hg) in *.
      destruct (IH c (after_events w (skip_lines r tab)))
        as (k & m' & h' & evs & -> & Hd); [done |].
      unfold after_events in *. proj.
      exists k, m', h', (skip_lines r tab ++ evs).
      rewrite app_assoc, discards_app, Hd. split; [done |]. by destruct r.
    + apply shouldExclude_guards_None in Hg as Hx. rewrite Hx in *. cbv zeta.
      rewrite (Hover tab) by (by left). cbn [length].
      destruct (n - c <=? minTabs (settings w)) eqn:Hfloor.
      * do 4 eexists.
        replace (Z.min _ _) with 0 by lia. rewrite Z.add_0_r.
        split; [reflexivity |].
        by rewrite discards_app, discards_lookup_lines.
      * pose proof (Hwilling (tab_id tab) (host w)) as Hok.
        destruct (tabs_discard (tab_id tab) (host w)) as [ok h1].
        cbn [fst] in Hok. subst ok.
        match goal with
        | |- context [scan_loop _ _ _ rest ?c1 ?w1] =>
            destruct (IH c1 w1) as (k & m' & h' & evs & -> & Hd)
        end.
        { proj. intros t Hin. apply overdue_after_lookup. apply Hover. by right. }
        proj. do 4 eexists. rewrite <- !app_assoc.
        split.
        { f_equal. f_equal. lia. }
        rewrite !discards_app, discards_lookup_lines, discards_discard_lines, Hd.
        cbn [app].
        replace (Z.to_nat (Z.min (Z.of_nat (S (length (candidates (settings w) rest))))
                             (Z.max 0 (n - minTabs (settings w) - c))))
          with (S (Z.to_nat (Z.min (Z.of_nat (length (candidates (settings w) rest)))
                               (Z.max 0 (n - minTabs (settings w) - (c + 1))))))
          by lia.
        done.
Qed.

(** X6: with a host that accepts every discard, in the range where the
    script computes without rounding, when every enumerated tab that
    [shouldExclude] lets through is overdue (its record is missing, 0, or
    older than the timeout), an enabled scan discards the first
    [min k (max 0 (p - minTabs))] of those tabs, in the order of the
    enumeration, and returns that number; [k] counts those tabs and [p] the
    tabs that are not discarded. *)
Theorem scan_discards_up_to_the_floor (now : Z) (w : World Host) :
  let s := settings w in
  let tabs := tabs_query (host w) in
  let cand := candidates s tabs in
  let budget := Z.min (Z.of_nat (length cand)) (Z.max 0 (pool tabs - minTabs s)) in
  exact_arithmetic now (inactiveTimeout s) (tabLastActive w) ->
  (forall id h, fst (tabs_discard id h) = true) ->
  enabled s = true ->
  (forall t, In t cand ->
     overdue now (inactiveTimeout s * 1000) (tabLastActive w !! tab_id t) = true) ->
  let r := checkAndDiscardInactiveTabs now w in
  fst r = budget
  /\ discards (events_since w (snd r))
     = map (fun t => (tab_id t, true)) (take (Z.to_nat budget) cand).
Proof.
  intros s tabs cand budget _ Hwilling He Hover r.
  subst r. rewrite scan_enabled by done. cbv zeta. fold s tabs.
  destruct (scan_loop_budget now (inactiveTimeout s * 1000) (pool tabs) tabs
              Hwilling 0 (after_events w (scan_header tabs)))
    as (k & m' & h' & evs & -> & Hd); [done |].
  unfold after_events in *. proj. fold s cand in Hd |- *.
  rewrite Z.sub_0_r in *. fold budget in Hd |- *.
  split; [lia |].
  rewrite <- app_assoc. erewrite events_since_app; [| reflexivity].
  by rewrite discards_app.
Qed.

(** X7: [getStats] only enumerates the tabs.  Its [total] is the number of
    tabs, [discarded] the number of discarded ones, [active] the rest, which
    is the pool the floor of the scan is measured against (and not the number
    of focused tabs); the three are non-negative and [total] is their sum. *)
Theorem getStats_counts (w : World Host) :
  let tabs := tabs_query (host w) in
  let st := fst (getStats w) in
  snd (getStats w) = after_events w [EvQuery]
  /\ stats_total st = Z.of_nat (length tabs)
  /\ stats_discarded st
     = Z.of_nat (length (List.filter (fun t => tab_discarded t) tabs))
  /\ stats_active st = pool tabs
  /\ stats_total st = stats_active st + stats_discarded st
  /\ 0 <= stats_active st /\ 0 <= stats_discarded st
  /\ stats_enabled st = enabled (settings w).
Proof.
  intros tabs st. subst st.
  unfold getStats, query, bind, emit, read_settings, ret, after_events, pool. proj.
  fold tabs.
  pose proof (List.filter_length (fun t => tab_discarded t) tabs) as Hlen.
  cbn beta in Hlen.
  cbn [stats_total stats_active stats_discarded stats_enabled].
  repeat split; try done; lia.
Qed.

End ScanProperties.

(** ** Rejected discard calls *)

Section FailureProperties.

Context {Host : Type} `{HostAPI Host}.

Ltac proj := cbn [settings tabLastActive host console fst snd] in *.

Lemma force_loop_app (pre post : list Tab) :
  forall (c : Z) (w : World Host),
    force_loop (pre ++ post) c w
    = force_loop post (fst (force_loop pre c w)) (snd (force_loop pre c w)).
Proof.
  induction pre as [| tab pre IH]; intros c w; [done |].
  cbn [app]. destruct (shouldExclude (settings w) tab) eqn:Hx.
  - rewrite !force_loop_excluded by done. apply IH.
  - rewrite !force_loop_attempt by done.
    destruct (tabs_discard (tab_id tab) (host w)) as [ok h']. apply IH.
Qed.

(** When every tab that [shouldExclude] lets through is overdue and the
    floor leaves room for all of them, the loop calls the discard action on
    each of them, in order, whatever the host answers. *)
Lemma scan_loop_all_attempted (now timeoutMs n : Z) (tabs : list Tab) :
  forall (c : Z) (w : World Host),
    let cand := candidates (settings w) tabs in
    (forall t, In t cand ->
       overdue now timeoutMs (tabLastActive w !! tab_id t) = true) ->
    c + Z.of_nat (length cand) <= n - minTabs (settings w) ->
    exists k c' m' h' evs,
      scan_loop now timeoutMs n tabs c w
        = (k, c', mkWorld (settings w) m' h' (console w ++ evs))
      /\ map fst (discards evs) = map tab_id cand.
Proof.
  induction tabs as [| tab rest IH]; intros c w cand Hover Hroom.
  - exists Continue, c, (tabLastActive w), (host w), [].
    cbn [scan_loop]. unfold ret. rewrite app_nil_r. by destruct w.
  - subst cand. rewrite scan_loop_step. rewrite candidates_cons in *.
    destruct (scan_guards (settings w) tab) as [r |] eqn:Hg.
    + rewrite (scan_guards_Some _ _ _ Hg) in *.
      destruct (IH c (after_events w (skip_lines r tab)))
        as (k & c' & m' & h' & evs & -> & Hd); [done | done |].
      unfold after_events in *. proj.
      exists k, c', m', h', (skip_lines r tab ++ evs).
      rewrite app_assoc, discards_app, <- Hd. split; [done |]. by destruct r.
    + apply shouldExclude_guards_None in Hg as Hx. rewrite Hx in *. cbv zeta.
      rewrite (Hover tab) by (by left). cbn [length] in Hroom.
      replace (n - c <=? minTabs (settings w)) with false by lia.
      destruct (tabs_discard (tab_id tab) (host w)) as [ok h1].
      match goal with
      | |- context [scan_loop _ _ _ rest ?c1 ?w1] =>
          destruct (IH c1 w1) as (k & c' & m' & h' & evs & -> & Hd)
      end.
      { proj. intros t Hin. apply overdue_after_lookup. apply Hover. by right. }
      { proj. destruct ok; lia. }
      proj. do 5 eexists. rewrite <- !app_assoc.
      split; [reflexivity |].
      rewrite !discards_app, discards_lookup_lines, discards_discard_lines, map_app.
      cbn [app map fst]. by rewrite Hd.
Qed.

(** C8: a discard call that rejects does not end the scan or the manual
    path.  The count either returns is the number of discard calls that
    resolved during the run, and every rejected call is followed at once by
    a [console.error] line.  When the call on a tab of the enumeration
    rejects, the run is the run of the loop on the tabs after it, with the
    count as it was before the call.  The manual path calls the discard
    action on every tab that [shouldExclude] lets through, whatever calls
    reject, and so does the scan when all of them are overdue and the floor
    leaves room for them.  For the scan the clock, the timeout and the
    records are in the range where the script computes without rounding. *)
Theorem discard_failure_is_not_fatal (now : Z) (w : World Host) :
  let s := settings w in
  let tabs := tabs_query (host w) in
  let timeoutMs := inactiveTimeout s * 1000 in
  let n := pool tabs in
  let scan := checkAndDiscardInactiveTabs now w in
  let force := forceDiscardInactiveTabs w in
  (console (snd scan) = console w ++ events_since w (snd scan)
   /\ fst scan = successes (events_since w (snd scan))
   /\ failures_logged (events_since w (snd scan)) = true)
  /\ (console (snd force) = console w ++ events_since w (snd force)
      /\ fst force = successes (events_since w (snd force))
      /\ failures_logged (events_since w (snd force)) = true)
  /\ (forall (pre : list Tab) (tab : Tab) (post : list Tab) (c : Z)
             (w1 : World Host),
        exact_arithmetic now (inactiveTimeout s) (tabLastActive w) ->
        enabled s = true ->
        tabs = pre ++ tab :: post ->
        scan_loop now timeoutMs n pre 0 (after_events w (scan_header tabs))
          = (Continue, c, w1) ->
        scan_guards s tab = None ->
        now - fst (lastActive_or_backdate now timeoutMs tab w1) > timeoutMs ->
        n - c > minTabs s ->
        fst (tabs_discard (tab_id tab) (host w1)) = false ->
        let w2 := snd (scan_body now timeoutMs n tab c w1) in
        scan_body now timeoutMs n tab c w1 = (Continue, c, w2)
        /\ (exists lines,
              events_since w1 w2
                = lines ++ [EvDiscard (tab_id tab) false;
                            EvError (ErrFailedDiscard (tab_id tab))])
        /\ scan = (let r := scan_loop now timeoutMs n post c w2 in
                   (snd (fst r), snd r)))
  /\ (forall (pre : list Tab) (tab : Tab) (post : list Tab) (c : Z)
             (w1 : World Host),
        tabs = pre ++ tab :: post ->
        force_loop pre 0 (after_events w [EvQuery; EvLog LogForceStart])
          = (c, w1) ->
        shouldExclude s tab = false ->
        fst (tabs_discard (tab_id tab) (host w1)) = false ->
        force
          = force_loop post c
              (mkWorld s (tabLastActive w)
                 (snd (tabs_discard (tab_id tab) (host w1)))
                 (console w1 ++ [EvDiscard (tab_id tab) false;
                                 EvError ErrForceFailed])))
  /\ map fst (discards (events_since w (snd force)))
     = map tab_id (candidates s tabs)
  /\ (exact_arithmetic now (inactiveTimeout s) (tabLastActive w) ->
      enabled s = true ->
      (forall t, In t (candidates s tabs) ->
         overdue now timeoutMs (tabLastActive w !! tab_id t) = true) ->
      Z.of_nat (length (candidates s tabs)) <= n - minTabs s ->
      map fst (discards (events_since w (snd scan)))
      = map tab_id (candidates s tabs))
  /\ (forall (timeoutMs n : Z) (tab : Tab) (rest : list Tab) (c : Z),
        exact_backdate now timeoutMs ->
        scan_guards (settings w) tab = None ->
        overdue now timeoutMs (tabLastActive w !! tab_id tab) = true ->
        n - c > minTabs (settings w) ->
        fst (tabs_discard (tab_id tab) (host w)) = false ->
        let w' := snd (scan_body now timeoutMs n tab c w) in
        scan_loop now timeoutMs n (tab :: rest) c w
          = scan_loop now timeoutMs n rest c w'
        /\ exists lines,
            events_since w w'
              = lines ++ [EvDiscard (tab_id tab) false;
                          EvError (ErrFailedDiscard (tab_id tab))])
  /\ (forall (tab : Tab) (rest : list Tab) (c : Z),
        shouldExclude (settings w) tab = false ->
        fst (tabs_discard (tab_id tab) (host w)) = false ->
        force_loop (tab :: rest) c w
          = force_loop rest c
              (mkWorld (settings w) (tabLastActive w)
                 (snd (tabs_discard (tab_id tab) (host w)))
                 (console w ++ [EvDiscard (tab_id tab) false;
                                EvError ErrForceFailed]))).
Proof.
  intros s tabs timeoutMs n scan force.
  assert (Hforce : exists h' tl,
    force = (successes tl,
             mkWorld s (tabLastActive w) h'
               (console w ++ [EvQuery; EvLog LogForceStart] ++ tl))
    /\ failures_logged tl = true
    /\ map fst (discards tl) = map tab_id (candidates s tabs)).
  { subst force. rewrite force_unfold.
    destruct (force_loop_frame (tabs_query (host w)) 0
                (after_events w [EvQuery; EvLog LogForceStart])
                (after_events w [EvQuery; EvLog LogForceStart]))
      as (h' & tl & -> & _ & Hf & _ & Hd); [done .. |].
    exists h', tl. unfold after_events. proj. rewrite <- app_assoc.
    by repeat split. }
  destruct Hforce as (hf & tl & Eforce & Hftl & Hdtl).
  split; [| split; [| split; [| split; [| split; [| split; [| split]]]]]].
  - subst scan. destruct (scan_run now w) as (m' & h' & evs & -> & Hf & _).
    proj. by rewrite (events_since_app w _ evs).
  - rewrite Eforce. proj.
    by rewrite (events_since_app w _ ([EvQuery; EvLog LogForceStart] ++ tl)).
  - intros pre tab post c w1 _ He Htabs Hpre Hg Hidle Hfloor Hrej w2.
    assert (Hs : settings w1 = s).
    { pose proof (scan_loop_settings now timeoutMs n pre 0
                    (after_events w (scan_header tabs))) as Hs.
      by rewrite Hpre in Hs. }
    apply overdue_idle in Hidle. rewrite <- Hs in Hg, Hfloor.
    assert (Hbody : scan_body now timeoutMs n tab c w1 = (Continue, c, w2)
                    /\ exists lines,
                         events_since w1 w2
                           = lines ++ [EvDiscard (tab_id tab) false;
                                       EvError (ErrFailedDiscard (tab_id tab))]).
    { subst w2. rewrite (scan_body_overdue _ _ _ _ _ _ Hg Hidle). cbv zeta.
      replace (n - c <=? minTabs (settings w1)) with false by lia.
      destruct (tabs_discard (tab_id tab) (host w1)) as [ok h'].
      cbn [fst] in Hrej. subst ok. split; [done |].
      cbn [snd]. erewrite events_since_app; [| reflexivity].
      eexists. reflexivity. }
    destruct Hbody as [Hbody Hlines]. split; [done |]. split; [done |].
    pose proof (scan_loop_app now timeoutMs n pre (tab :: post) 0
                  (after_events w (scan_header tabs))) as Happ.
    rewrite <- Htabs, Hpre in Happ.
    cbn [scan_loop] in Happ. unfold bind at 1 in Happ.
    rewrite Hbody in Happ.
    subst scan. rewrite scan_enabled by done. cbv zeta.
    fold tabs. fold s. fold timeoutMs. fold n.
    by rewrite Happ.
  - intros pre tab post c w1 Htabs Hpre Hx Hrej.
    destruct (force_loop_frame pre 0
                (after_events w [EvQuery; EvLog LogForceStart])
                (after_events w [EvQuery; EvLog LogForceStart]))
      as (h1 & e1 & E1 & _); [done .. |].
    rewrite E1 in Hpre. injection Hpre as <- <-.
    subst force. rewrite force_unfold. fold tabs.
    rewrite Htabs, force_loop_app, E1. unfold after_events in *. proj.
    rewrite force_loop_attempt by done. proj.
    destruct (tabs_discard (tab_id tab) h1) as [ok h'].
    cbn [fst] in Hrej. by subst ok.
  - rewrite Eforce. proj.
    rewrite (events_since_app w _ ([EvQuery; EvLog LogForceStart] ++ tl)) by done.
    by rewrite discards_app.
  - intros _ He Hover Hroom.
    subst scan. rewrite scan_enabled by done. cbv zeta. fold s tabs timeoutMs n.
    destruct (scan_loop_all_attempted now timeoutMs n tabs 0
                (after_events w (scan_header tabs)))
      as (k & c' & m' & h' & evs & -> & Hd);
      [done | unfold after_events; proj; rewrite Z.add_0_l; exact Hroom |].
    unfold after_events in *. proj. fold s in Hd.
    rewrite <- app_assoc. erewrite events_since_app; [| reflexivity].
    by rewrite discards_app.
  - intros timeoutMs' n' tab rest c _ Hg Ho Hfloor Hrej. cbv zeta.
    cbn [scan_loop]. unfold bind.
    rewrite (scan_body_overdue _ _ _ _ _ _ Hg Ho).
    replace (n' - c <=? minTabs (settings w)) with false by lia.
    destruct (tabs_discard (tab_id tab) (host w)) as [ok h'].
    cbn [fst] in Hrej. subst ok. split; [done |].
    cbn [snd]. erewrite events_since_app; [| reflexivity].
    eexists. reflexivity.
  - intros tab rest c Hx Hrej.
    rewrite force_loop_attempt by done.
    destruct (tabs_discard (tab_id tab) (host w)) as [ok h'].
    cbn [fst] in Hrej. by subst ok.
Qed.

End FailureProperties.

Lemma discard_failure_is_not_fatal_witness :
  exact_arithmetic clock (inactiveTimeout (settings world_A))
    (tabLastActive world_A)
  /\ fst (@tabs_discard _ (picky_host [3]) 3 (host world_A)) = false
  /\ @checkAndDiscardInactiveTabs _ (picky_host [3]) clock world_A
     = (let r := @scan_loop _ (picky_host [3]) clock 30000 4
                   [web_tab 4 false false] 1
                   (snd (@scan_body _ (picky_host [3]) clock 30000 4
                           (web_tab 3 false false) 1
                           (snd (@scan_loop _ (picky_host [3]) clock 30000 4
                                   [web_tab 1 true false; web_tab 2 false false] 0
                                   (after_events world_A (scan_header tabs_A)))))) in
        (snd (fst r), snd r))
  /\ map fst (discards (events_since world_A
        (snd (@checkAndDiscardInactiveTabs _ (picky_host [3]) clock world_A))))
     = [2; 3; 4].
Proof.
  assert (Hexact : exact_arithmetic clock (inactiveTimeout (settings world_A))
                     (tabLastActive world_A)).
  { unfold exact_arithmetic, exact_backdate, safe.
    split; [| split; [repeat split |]]; [vm_compute; discriminate .. |].
    unfold world_A, tracker_A. cbn [tabLastActive].
    repeat (apply map_Forall_insert_2; [split; vm_compute; discriminate |]).
    apply map_Forall_empty. }
  split; [exact Hexact |]. split; [reflexivity |].
  pose proof (@discard_failure_is_not_fatal _ (picky_host [3]) clock world_A)
    as (_ & _ & Hscan & _ & _ & Hall & _).
  split.
  - apply (Hscan [web_tab 1 true false; web_tab 2 false false]
             (web_tab 3 false false) [web_tab 4 false false] 1
             (snd (@scan_loop _ (picky_host [3]) clock 30000 4
                     [web_tab 1 true false; web_tab 2 false false] 0
                     (after_events world_A (scan_header tabs_A))))).
    + exact Hexact.
    + reflexivity.
    + reflexivity.
    + vm_compute. reflexivity.
    + reflexivity.
    + vm_compute. reflexivity.
    + vm_compute. reflexivity.
    + reflexivity.
  - apply Hall.
    + exact Hexact.
    + reflexivity.
    + intros t [<- | [<- | [<- | []]]]; vm_compute; reflexivity.
    + vm_compute. discriminate.
Defined.

(** ** Properties of the rest of the background script *)

Section BackgroundProperties.

Context {Host : Type} {host_api : HostAPI Host}
        {Store : Type} {store_api : StorageAPI Store}.

Ltac xproj :=
  cbn [x_settings x_tabLastActive x_host x_store x_timers x_nextTimer
       x_checkIntervalId x_listening x_console
       settings tabLastActive host console fst snd] in *.

Ltac xunfold :=
  unfold handleTabCreated, handleTabActivated, handleTabUpdated,
    handleTabRemoved, write, set_tracker, set_settings, set_store,
    set_listening, setupListeners in *.

Lemma spread_as_patch (base s : Settings) : spread base (as_patch s) = s.
Proof. by destruct s. Qed.

Lemma spread_no_patch (base : Settings) : spread base no_patch = base.
Proof. by destruct base. Qed.

Lemma entries_since_app (x x' : Extension Host Store) (es : list entry) :
  x_console x' = x_console x ++ es -> entries_since x x' = es.
Proof. intros Hc. unfold entries_since. rewrite Hc. by rewrite drop_app_length. Qed.

Lemma engine_events_Engine (evs : list event) :
  engine_events (map Engine evs) = evs.
Proof.
  unfold engine_events. induction evs as [| e evs IH]; [done |].
  cbn. by rewrite IH.
Qed.

(** X8: each lifecycle handler writes the record of its own tab and nothing
    else but the console: creation and activation store the reading of the
    clock; an update stores it when [audible] is [true] or the url is a
    non-empty string (the later reading when both), and otherwise leaves the
    record as it was; removal deletes the record.  Settings, host, store,
    timer and every other record stay as they were. *)
Theorem lifecycle_handlers_touch_one_record (x : Extension Host Store) :
  (forall now tab,
     touches_only (tab_id tab) x (handleTabCreated now tab x)
     /\ x_tabLastActive (handleTabCreated now tab x) !! tab_id tab = Some now)
  /\ (forall now id,
        touches_only id x (handleTabActivated now id x)
        /\ x_tabLastActive (handleTabActivated now id x) !! id = Some now)
  /\ (forall now1 now2 id change,
        touches_only id x (handleTabUpdated now1 now2 id change x)
        /\ x_tabLastActive (handleTabUpdated now1 now2 id change x) !! id
           = if truthy_string (change_url change) then Some now2
             else if is_true (change_audible change) then Some now1
             else x_tabLastActive x !! id)
  /\ (forall id,
        touches_only id x (handleTabRemoved id x)
        /\ x_tabLastActive (handleTabRemoved id x) !! id = None).
Proof.
  unfold touches_only. repeat split; xunfold; xproj; try done.
  - intros id' Hne. by rewrite lookup_insert_ne.
  - by rewrite lookup_insert_eq.
  - intros id' Hne. by rewrite lookup_insert_ne.
  - by rewrite lookup_insert_eq.
  - by destruct (is_true _), (truthy_string _).
  - by destruct (is_true _), (truthy_string _).
  - by destruct (is_true _), (truthy_string _).
  - by destruct (is_true _), (truthy_string _).
  - by destruct (is_true _), (truthy_string _).
  - by destruct (is_true _), (truthy_string _).
  - intros id' Hne.
    destruct (is_true _), (truthy_string _); xproj;
      by rewrite ?lookup_insert_ne by done.
  - destruct (is_true _), (truthy_string _); xproj;
      by rewrite ?lookup_insert_eq.
  - intros id' Hne. by rewrite lookup_delete_ne.
  - by rewrite lookup_delete_eq.
Qed.

(** A tick is a scan on the globals and the host of the script. *)
Lemma tick_facts (now : Z) (x : Extension Host Store) :
  exists c m' h' evs,
    checkAndDiscardInactiveTabs now (world_of x)
      = (c, mkWorld (x_settings x) m' h' evs)
    /\ tick now x
       = mkExtension (x_settings x) m' h' (x_store x) (x_timers x)
           (x_nextTimer x) (x_checkIntervalId x) (x_listening x)
           (x_console x ++ map Engine evs)
    /\ (forall id t,
          x_tabLastActive x !! id = Some t -> t <> 0 ->
          now - t <= inactiveTimeout (x_settings x) * 1000 ->
          m' !! id = Some t /\ forall ok, ~ In (id, ok) (discards evs)).
Proof.
  destruct (scan_facts now (world_of x))
    as (c & m' & h' & evs & Hr & _ & F2 & _ & _ & F6).
  unfold world_of in Hr, F2, F6. xproj. cbn [app] in Hr.
  exists c, m', h', evs. split; [exact Hr |]. split.
  - unfold tick, engine. unfold world_of. by rewrite Hr.
  - intros id t Hid Ht Hle. split; [| by apply (F6 id t)].
    destruct (F2 id) as [-> | (Hf & _)]; [done |].
    rewrite Hid in Hf. cbn [falsy] in Hf. lia.
Qed.

Lemma tick_spares (now : Z) (x : Extension Host Store) (id t : Z) :
  x_tabLastActive x !! id = Some t -> t <> 0 ->
  now - t <= inactiveTimeout (x_settings x) * 1000 ->
  x_tabLastActive (tick now x) !! id = Some t
  /\ forall ok,
       ~ In (id, ok) (discards (engine_events (entries_since x (tick now x)))).
Proof.
  intros Hid Ht Hle.
  destruct (tick_facts now x) as (c & m' & h' & evs & _ & -> & Hfresh).
  destruct (Hfresh id t Hid Ht Hle) as [Hm Hno]. xproj. split; [done |].
  erewrite entries_since_app; [| reflexivity].
  by rewrite engine_events_Engine.
Qed.

(** X9: a tab that was created or activated at a time [t] other than 0 is
    not discarded by a tick of the timer as long as no more than the timeout
    has passed since [t]: the scan makes no discard call with its id and its
    record still holds [t]. *)
Theorem recent_activity_protects_from_tick (x : Extension Host Store)
    (t now : Z) :
  t <> 0 ->
  now - t <= inactiveTimeout (x_settings x) * 1000 ->
  (forall id,
     let x1 := handleTabActivated t id x in
     x_tabLastActive (tick now x1) !! id = Some t
     /\ forall ok,
          ~ In (id, ok) (discards (engine_events (entries_since x1 (tick now x1)))))
  /\ (forall tab,
        let x1 := handleTabCreated t tab x in
        x_tabLastActive (tick now x1) !! tab_id tab = Some t
        /\ forall ok,
             ~ In (tab_id tab, ok)
                 (discards (engine_events (entries_since x1 (tick now x1))))).
Proof.
  intros Ht Hle. split.
  - intros id x1. apply tick_spares; [| done | done].
    subst x1. xunfold. xproj. by rewrite lookup_insert_eq.
  - intros tab x1. apply tick_spares; [| done | done].
    subst x1. xunfold. xproj. by rewrite lookup_insert_eq.
Qed.

(** X10: removing a tab twice leaves the activity map as removing it once,
    and removing a tab that has no record leaves the map as it was. *)
Theorem handleTabRemoved_idempotent (x : Extension Host Store) (id : Z) :
  x_tabLastActive (handleTabRemoved id (handleTabRemoved id x))
  = x_tabLastActive (handleTabRemoved id x)
  /\ (x_tabLastActive x !! id = None ->
      x_tabLastActive (handleTabRemoved id x) = x_tabLastActive x).
Proof.
  xunfold. xproj. split.
  - apply map_eq. intros i. destruct (decide (i = id)) as [-> | Hne].
    + by rewrite !lookup_delete_eq.
    + by rewrite !lookup_delete_ne.
  - intros Hnone. by apply delete_id.
Qed.

(** *** Settings and timer *)

Lemma engine_frame {A : Type} (m : M Host A) (x : Extension Host Store) :
  let x' := snd (engine m x) in
  x_settings x' = settings (snd (m (world_of x)))
  /\ x_tabLastActive x' = tabLastActive (snd (m (world_of x)))
  /\ x_host x' = host (snd (m (world_of x)))
  /\ x_store x' = x_store x
  /\ x_timers x' = x_timers x
  /\ x_checkIntervalId x' = x_checkIntervalId x
  /\ x_listening x' = x_listening x
  /\ x_console x' = x_console x ++ map Engine (console (snd (m (world_of x)))).
Proof. unfold engine. by destruct (m (world_of x)) as [a w]. Qed.

Lemma force_settings (w : World Host) :
  settings (snd (forceDiscardInactiveTabs w)) = settings w
  /\ tabLastActive (snd (forceDiscardInactiveTabs w)) = tabLastActive w.
Proof.
  rewrite force_unfold.
  destruct (force_loop_frame (tabs_query (host w)) 0
              (after_events w [EvQuery; EvLog LogForceStart])
              (after_events w [EvQuery; EvLog LogForceStart]))
    as (h' & evs & -> & _); done.
Qed.

Lemma getStats_settings (w : World Host) :
  settings (snd (getStats w)) = settings w
  /\ tabLastActive (snd (getStats w)) = tabLastActive w
  /\ host (snd (getStats w)) = host w.
Proof. by unfold getStats, query, bind, emit, read_settings, ret. Qed.

Lemma scan_settings (now : Z) (w : World Host) :
  settings (snd (checkAndDiscardInactiveTabs now w)) = settings w.
Proof. by destruct (scan_run now w) as (m' & h' & evs & -> & _). Qed.

Lemma startCheckInterval_restarts (x : Extension Host Store) :
  single_timer x ->
  timer_in_step (startCheckInterval x)
  /\ x_checkIntervalId (startCheckInterval x) = Some (x_nextTimer x).
Proof.
  intros Hsingle. unfold timer_in_step, startCheckInterval, write. xproj.
  split; [| done]. exists (x_nextTimer x). split; [done |].
  unfold single_timer in Hsingle.
  destruct (x_checkIntervalId x) as [id |].
  - destruct Hsingle as [delay ->]. by rewrite delete_singleton_eq, insert_empty.
  - by rewrite Hsingle, insert_empty.
Qed.

Lemma timer_in_step_single (x : Extension Host Store) :
  timer_in_step x -> single_timer x.
Proof.
  intros (id & Hid & Ht). unfold single_timer. rewrite Hid. by eexists.
Qed.

Lemma startCheckInterval_frame (x : Extension Host Store) :
  x_settings (startCheckInterval x) = x_settings x
  /\ x_tabLastActive (startCheckInterval x) = x_tabLastActive x
  /\ x_host (startCheckInterval x) = x_host x
  /\ x_store (startCheckInterval x) = x_store x
  /\ x_listening (startCheckInterval x) = x_listening x.
Proof. done. Qed.

Lemma single_timer_ext (x x' : Extension Host Store) :
  x_timers x' = x_timers x -> x_checkIntervalId x' = x_checkIntervalId x ->
  single_timer x -> single_timer x'.
Proof. unfold single_timer. by intros -> ->. Qed.

Lemma timer_in_step_ext (x x' : Extension Host Store) :
  x_timers x' = x_timers x -> x_checkIntervalId x' = x_checkIntervalId x ->
  x_settings x' = x_settings x ->
  timer_in_step x -> timer_in_step x'.
Proof. unfold timer_in_step. by intros -> -> ->. Qed.

Lemma saveSettings_cases (p : SettingsPatch) (x : Extension Host Store) :
  let x1 := set_settings (spread (x_settings x) p) x in
  (exists st, storage_set (as_patch (spread (x_settings x) p)) (x_store x) = Some st
     /\ saveSettings p x = (true, startCheckInterval (set_store st x1)))
  \/ (storage_set (as_patch (spread (x_settings x) p)) (x_store x) = None
      /\ saveSettings p x = (false, x1)).
Proof.
  unfold saveSettings. xunfold. xproj.
  destruct (storage_set _ _) as [st |]; [left; by exists st | by right].
Qed.

Lemma handleMessage_timer (message : Message) (x : Extension Host Store) :
  let x' := snd (handleMessage message x) in
  (single_timer x -> single_timer x')
  /\ ((forall p st, storage_set p st <> None) -> timer_in_step x -> timer_in_step x').
Proof.
  unfold handleMessage.
  set (x0 := write (NoteMessage (msg_type message)) x).
  assert (Hs0 : single_timer x -> single_timer x0) by done.
  assert (Ht0 : timer_in_step x -> timer_in_step x0) by done.
  destruct (String.eqb (msg_type message) "getSettings"); [by split |].
  destruct (String.eqb (msg_type message) "saveSettings").
  { destruct (saveSettings_cases (msg_settings message) x0)
      as [(st & _ & ->) | (Hrej & ->)]; cbn [snd].
    - split; intros.
      + apply timer_in_step_single, startCheckInterval_restarts. by apply Hs0.
      + apply startCheckInterval_restarts.
        apply (single_timer_ext x0); [done | done |].
        by apply timer_in_step_single, Ht0.
    - split; [intros Hs; by apply Hs0 |].
      intros Hnever. by destruct (Hnever _ _ Hrej). }
  destruct (String.eqb (msg_type message) "getStats").
  { pose proof (engine_frame getStats x0) as (Hset & _ & _ & _ & Htm & Hid & _).
    destruct (getStats_settings (world_of x0)) as (Hs & _).
    destruct (engine getStats x0) as [st x1]. cbn [snd] in *.
    split; intros.
    - eapply single_timer_ext; [exact Htm | exact Hid | by apply Hs0].
    - eapply timer_in_step_ext; [exact Htm | exact Hid | | by apply Ht0].
      by rewrite Hset, Hs. }
  destruct (String.eqb (msg_type message) "discardNow").
  { pose proof (engine_frame forceDiscardInactiveTabs x0)
      as (Hset & _ & _ & _ & Htm & Hid & _).
    destruct (force_settings (world_of x0)) as (Hs & _).
    destruct (engine forceDiscardInactiveTabs x0) as [n x1]. cbn [snd] in *.
    split; intros.
    - eapply single_timer_ext; [exact Htm | exact Hid | by apply Hs0].
    - eapply timer_in_step_ext; [exact Htm | exact Hid | | by apply Ht0].
      by rewrite Hset, Hs. }
  by split.
Qed.

Lemma step_timer (a : action) (x : Extension Host Store) :
  (single_timer x -> single_timer (step a x))
  /\ ((forall p st, storage_set p st <> None) ->
      timer_in_step x -> timer_in_step (step a x)).
Proof.
  destruct a as [now tab | now id | now1 now2 id change | id | changes area
                 | message | timer now]; cbn [step].
  - by destruct (x_listening x).
  - by destruct (x_listening x).
  - destruct (x_listening x); [| done]. unfold handleTabUpdated.
    by destruct (is_true _), (truthy_string _).
  - by destruct (x_listening x).
  - destruct (x_listening x); [| done]. unfold handleStorageChanged.
    destruct (String.eqb area "local"); [| done].
    destruct changes as [newValue |]; [| done].
    split; intros.
    + apply timer_in_step_single.
      eapply timer_in_step_ext; [done | done | done |].
      by apply startCheckInterval_restarts.
    + eapply timer_in_step_ext; [done | done | done |].
      apply startCheckInterval_restarts.
      apply (single_timer_ext x); [done | done |].
      by apply timer_in_step_single.
  - destruct (x_listening x); [| done]. apply handleMessage_timer.
  - destruct (x_timers x !! timer); [| done].
    pose proof (engine_frame (checkAndDiscardInactiveTabs now) x)
      as (Hset & _ & _ & _ & Htm & Hid & _).
    pose proof (scan_settings now (world_of x)) as Hs.
    unfold tick. split; intros.
    + by eapply single_timer_ext.
    + eapply timer_in_step_ext; [exact Htm | exact Hid | | done].
      by rewrite Hset, Hs.
Qed.

Lemma single_timer_write (n : note) (x : Extension Host Store) :
  single_timer x -> single_timer (write n x).
Proof. done. Qed.

Lemma timer_in_step_write (n : note) (x : Extension Host Store) :
  timer_in_step x -> timer_in_step (write n x).
Proof. done. Qed.

Lemma single_timer_settings (s : Settings) (x : Extension Host Store) :
  single_timer x -> single_timer (set_settings s x).
Proof. done. Qed.

Lemma single_timer_listening (b : bool) (x : Extension Host Store) :
  single_timer x -> single_timer (set_listening b x).
Proof. done. Qed.

Lemma single_timer_engine {A : Type} (m : M Host A) (x : Extension Host Store) :
  single_timer x -> single_timer (snd (engine m x)).
Proof.
  pose proof (engine_frame m x) as (_ & _ & _ & _ & Htm & Hid & _).
  by apply single_timer_ext.
Qed.

(** X11: at most one interval timer of the script runs at any time, and
    [checkIntervalId] is its handle: this holds after [init] and after any
    sequence of events, messages and ticks that follows, whatever the store
    answers; and right after [init] the period of that timer is
    [checkInterval] seconds. *)
Theorem timer_single_instance (now : Z) (actions : list action)
    (x : Extension Host Store) :
  single_timer x ->
  timer_in_step (init now x)
  /\ single_timer (run actions (init now x)).
Proof.
  intros Hsingle.
  assert (Hinit : timer_in_step (init now x)).
  { unfold init. cbv zeta.
    do 3 apply timer_in_step_write.
    apply startCheckInterval_restarts.
    apply single_timer_write. unfold setupListeners.
    apply single_timer_listening, single_timer_write, single_timer_engine,
      single_timer_write.
    unfold loadSettings.
    destruct (storage_get _) as [[stored |] |];
      [apply single_timer_settings | | apply single_timer_write];
      by apply single_timer_write. }
  split; [done |].
  apply timer_in_step_single in Hinit. revert Hinit.
  generalize (init now x). unfold run.
  induction actions as [| a actions IH]; intros x0 Hx0; [done |].
  cbn [fold_left]. apply IH. by apply step_timer.
Qed.

(** X12: a save restarts the timer with the period of the settings in
    force at the restart.  [saveSettings] awaits the store between the
    assignment of the settings (line 127) and the restart (line 131), and
    events, messages and ticks can run in between.  Until the restart the
    old timer runs on under the new settings, so its period is out of step
    when the save changes [checkInterval].  Whatever ran in between, after
    the restart one timer runs, [checkIntervalId] is its handle and its
    period is [checkInterval * 1000] ms for the settings of that moment
    (a product that the script computes without rounding).  When nothing
    runs in between, this is [saveSettings] as a whole. *)
Theorem save_restarts_timer (p : SettingsPatch) (between : list action)
    (x xa : Extension Host Store) :
  single_timer x ->
  saveSettings_until_await p x = Some xa ->
  let y := run between xa in
  let x' := startCheckInterval y in
  safe (checkInterval (x_settings y) * 1000) ->
  (x_settings xa = spread (x_settings x) p
   /\ x_timers xa = x_timers x
   /\ x_checkIntervalId xa = x_checkIntervalId x
   /\ (timer_in_step x ->
       checkInterval (spread (x_settings x) p) <> checkInterval (x_settings x) ->
       ~ timer_in_step xa))
  /\ (x_settings x' = x_settings y
      /\ x_checkIntervalId x' = Some (x_nextTimer y)
      /\ x_timers x' = {[x_nextTimer y := checkInterval (x_settings y) * 1000]})
  /\ saveSettings p x = (true, startCheckInterval xa).
Proof.
  intros Hsingle Hsave y x' _.
  assert (Hxa : exists st,
    storage_set (as_patch (spread (x_settings x) p)) (x_store x) = Some st
    /\ xa = set_store st (set_settings (spread (x_settings x) p) x)).
  { unfold saveSettings_until_await in Hsave. cbv zeta in Hsave.
    change (x_settings (set_settings (spread (x_settings x) p) x))
      with (spread (x_settings x) p) in Hsave.
    change (x_store (set_settings (spread (x_settings x) p) x))
      with (x_store x) in Hsave.
    destruct (storage_set _ _) as [st |] eqn:Hst; [| discriminate Hsave].
    injection Hsave as <-. by exists st. }
  destruct Hxa as (st & Hst & Hxa).
  assert (Hframe : x_settings xa = spread (x_settings x) p
                   /\ x_timers xa = x_timers x
                   /\ x_checkIntervalId xa = x_checkIntervalId x)
    by (by rewrite Hxa).
  destruct Hframe as (Hset & Htm & Hid).
  split; [| split].
  - split; [done |]. split; [done |]. split; [done |].
    intros (id & Hh & Ht) Hne (id' & Hh' & Ht').
    rewrite Htm, Ht, Hset in Ht'.
    assert (Hl : ({[id' := checkInterval (spread (x_settings x) p) * 1000]}
                    : gmap positive Z) !! id
                 = Some (checkInterval (x_settings x) * 1000))
      by (rewrite <- Ht'; apply lookup_singleton_eq).
    apply lookup_singleton_Some in Hl as [_ Heq]. lia.
  - assert (Hy : single_timer y).
    { assert (Hrun : forall acts z, single_timer z -> single_timer (run acts z)).
      { unfold run. induction acts as [| a acts IH]; intros z Hz; [done |].
        cbn [fold_left]. apply IH. by apply step_timer. }
      apply Hrun. by apply (single_timer_ext x). }
    destruct (startCheckInterval_restarts y Hy) as ((id & Hh & Ht) & Hnew).
    subst x'. split; [done |]. split; [done |].
    rewrite Hnew in Hh. injection Hh as <-. exact Ht.
  - destruct (saveSettings_cases p x) as [(st' & Hst' & ->) | (Hrej & _)].
    + rewrite Hst in Hst'. injection Hst' as <-. by rewrite Hxa.
    + by rewrite Hst in Hrej.
Qed.

Lemma handleMessage_saveSettings (p : SettingsPatch) (x : Extension Host Store) :
  handleMessage (mkMessage "saveSettings" p) x
  = (if fst (saveSettings p (write (NoteMessage "saveSettings") x))
     then Some ReplySuccess else None,
     snd (saveSettings p (write (NoteMessage "saveSettings") x))).
Proof.
  unfold handleMessage. cbn [msg_type msg_settings].
  change (String.eqb "saveSettings" "getSettings") with false.
  change (String.eqb "saveSettings" "saveSettings") with true.
  cbv iota. by destruct (saveSettings _ _).
Qed.

Lemma handleMessage_getStats (message : Message) (x : Extension Host Store) :
  msg_type message = "getStats"%string ->
  handleMessage message x
  = (Some (ReplyStats (fst (engine getStats (write (NoteMessage "getStats") x)))),
     snd (engine getStats (write (NoteMessage "getStats") x))).
Proof.
  intros Ht. unfold handleMessage. rewrite Ht.
  change (String.eqb "getStats" "getSettings") with false.
  change (String.eqb "getStats" "saveSettings") with false.
  change (String.eqb "getStats" "getStats") with true.
  cbv iota. by destruct (engine getStats _).
Qed.

Lemma handleMessage_discardNow (message : Message) (x : Extension Host Store) :
  msg_type message = "discardNow"%string ->
  handleMessage message x
  = (Some (ReplyDiscarded
             (fst (engine forceDiscardInactiveTabs
                     (write (NoteMessage "discardNow") x)))),
     snd (engine forceDiscardInactiveTabs (write (NoteMessage "discardNow") x))).
Proof.
  intros Ht. unfold handleMessage. rewrite Ht.
  change (String.eqb "discardNow" "getSettings") with false.
  change (String.eqb "discardNow" "saveSettings") with false.
  change (String.eqb "discardNow" "getStats") with false.
  change (String.eqb "discardNow" "discardNow") with true.
  cbv iota. by destruct (engine forceDiscardInactiveTabs _).
Qed.

(** X13: when the store rejects the write, a save request rejects too, but
    the settings in memory have already taken the new values, while the
    store, the timer and its handle stay as they were: the timer keeps the
    period of the old settings. *)
Theorem failed_save_changes_memory_only (p : SettingsPatch)
    (x : Extension Host Store) :
  storage_set (as_patch (spread (x_settings x) p)) (x_store x) = None ->
  let r := handleMessage (mkMessage "saveSettings" p) x in
  fst r = None
  /\ x_settings (snd r) = spread (x_settings x) p
  /\ x_store (snd r) = x_store x
  /\ x_timers (snd r) = x_timers x
  /\ x_checkIntervalId (snd r) = x_checkIntervalId x
  /\ x_tabLastActive (snd r) = x_tabLastActive x.
Proof.
  intros Hrej. cbv zeta. rewrite handleMessage_saveSettings.
  destruct (saveSettings_cases p (write (NoteMessage "saveSettings") x))
    as [(st & Hok & _) | (_ & ->)].
  - change (storage_set (as_patch (spread (x_settings x) p)) (x_store x) = Some st)
      in Hok. by rewrite Hrej in Hok.
  - by cbn [fst snd].
Qed.

(** X14: a save sent by the popup sets [enabled], [excludePinned] and
    [excludeAudible] to the state of the boxes and [inactiveTimeout] to the
    parsed number, or to 30 when the field does not parse or parses to 0, so
    never to 0; it never changes [checkInterval] or [minTabs].  This holds
    whether or not the store accepts the write. *)
Theorem popup_save_sets_four_fields (enabled_box : bool) (parsed : option Z)
    (pinned_box audible_box : bool) (x : Extension Host Store) :
  let s' :=
    x_settings
      (snd (handleMessage
              (Popup.saveSettings enabled_box parsed pinned_box audible_box) x)) in
  enabled s' = enabled_box
  /\ excludePinned s' = pinned_box
  /\ excludeAudible s' = audible_box
  /\ inactiveTimeout s'
     = match parsed with Some 0 | None => 30 | Some t => t end
  /\ inactiveTimeout s' <> 0
  /\ checkInterval s' = checkInterval (x_settings x)
  /\ minTabs s' = minTabs (x_settings x).
Proof.
  unfold Popup.saveSettings. rewrite handleMessage_saveSettings. cbn [snd].
  match goal with
  | |- context [saveSettings ?p ?x0] =>
      destruct (saveSettings_cases p x0) as [(st & _ & ->) | (_ & ->)]
  end; cbn [snd].
  - rewrite (proj1 (startCheckInterval_frame _)).
    unfold set_store, set_settings, write, spread. xproj.
    cbn [default from_option patch_enabled patch_inactiveTimeout
         patch_checkInterval patch_excludePinned patch_excludeAudible
         patch_minTabs enabled inactiveTimeout checkInterval excludePinned
         excludeAudible minTabs].
    repeat split; try done. by destruct parsed as [[| t | t] |].
  - unfold set_settings, write, spread. xproj.
    cbn [default from_option patch_enabled patch_inactiveTimeout
         patch_checkInterval patch_excludePinned patch_excludeAudible
         patch_minTabs enabled inactiveTimeout checkInterval excludePinned
         excludeAudible minTabs].
    repeat split; try done. by destruct parsed as [[| t | t] |].
Qed.

Lemma loadSettings_stored (y : Extension Host Store) (q : SettingsPatch) :
  storage_get (x_store y) = Some (Some q) ->
  x_settings (loadSettings y) = spread DEFAULT_SETTINGS q.
Proof. intros Hq. unfold loadSettings. by rewrite Hq. Qed.

Lemma handleStorageChanged_settings (newValue : option SettingsPatch)
    (x : Extension Host Store) :
  x_settings (handleStorageChanged (Some newValue) "local" x)
  = spread DEFAULT_SETTINGS (default no_patch newValue).
Proof. done. Qed.

(** X15: with a store that returns what was written, the settings in force
    after a successful save are the ones [loadSettings] finds again, from
    any state that has that store (a restart of the script, for one); and
    the change notice of that very write, when it comes back to
    [handleStorageChanged], leaves the settings as they are. *)
Theorem saved_settings_are_restored (p : SettingsPatch)
    (x x' : Extension Host Store) :
  (forall q st st', storage_set q st = Some st' -> storage_get st' = Some (Some q)) ->
  saveSettings p x = (true, x') ->
  x_settings x' = spread (x_settings x) p
  /\ (forall y : Extension Host Store,
        x_store y = x_store x' ->
        x_settings (loadSettings y) = x_settings x')
  /\ x_settings
       (handleStorageChanged (Some (Some (as_patch (x_settings x')))) "local" x')
     = x_settings x'.
Proof.
  intros Hlaw Hsave.
  destruct (saveSettings_cases p x) as [(st & Hset & Heq) | (_ & Heq)];
    rewrite Heq in Hsave; [| discriminate].
  injection Hsave as <-.
  assert (Hs : x_settings
                 (startCheckInterval
                    (set_store st (set_settings (spread (x_settings x) p) x)))
               = spread (x_settings x) p) by done.
  assert (Hst : x_store
                  (startCheckInterval
                     (set_store st (set_settings (spread (x_settings x) p) x)))
                = st) by done.
  rewrite Hs. split; [done |]. split.
  - intros y Hy. rewrite Hst in Hy.
    rewrite (loadSettings_stored y (as_patch (spread (x_settings x) p))).
    + apply spread_as_patch.
    + rewrite Hy. by apply Hlaw in Hset.
  - rewrite handleStorageChanged_settings. cbn [default from_option].
    apply spread_as_patch.
Qed.

(** X16: [handleStorageChanged] does nothing at all for an area other than
    ["local"] or a change that is not about the settings.  Otherwise the new
    settings are the defaults overridden by the stored object: removing the
    stored settings brings the defaults back, and a property that the stored
    object lacks takes its default, not the value in force.  The activity
    map is untouched and the timer runs with the new period. *)
Theorem handleStorageChanged_resets_to_defaults
    (changes : option (option SettingsPatch)) (area : string)
    (x : Extension Host Store) :
  (area <> "local"%string -> handleStorageChanged changes area x = x)
  /\ (changes = None -> handleStorageChanged changes area x = x)
  /\ (forall newValue,
        changes = Some newValue -> area = "local"%string ->
        let x' := handleStorageChanged changes area x in
        x_settings x' = spread DEFAULT_SETTINGS (default no_patch newValue)
        /\ (newValue = None -> x_settings x' = DEFAULT_SETTINGS)
        /\ x_tabLastActive x' = x_tabLastActive x
        /\ (single_timer x -> timer_in_step x')).
Proof.
  unfold handleStorageChanged. split; [| split].
  - intros Hne. apply String.eqb_neq in Hne. by rewrite Hne.
  - intros ->. by destruct (String.eqb area "local").
  - intros newValue -> ->. cbn [String.eqb Ascii.eqb Bool.eqb]. cbv zeta.
    split; [done |]. split; [by intros -> |]. split; [done |].
    intros Hsingle.
    eapply timer_in_step_ext; [done | done | done |].
    apply startCheckInterval_restarts.
    by apply (single_timer_ext x).
Qed.

(** *** Messages and start *)

Lemma force_run (w : World Host) :
  exists h' evs,
    forceDiscardInactiveTabs w
      = (successes evs,
         mkWorld (settings w) (tabLastActive w) h' (console w ++ evs))
    /\ map fst (discards evs)
       = map tab_id (candidates (settings w) (tabs_query (host w))).
Proof.
  rewrite force_unfold.
  destruct (force_loop_frame (tabs_query (host w)) 0
              (after_events w [EvQuery; EvLog LogForceStart])
              (after_events w [EvQuery; EvLog LogForceStart]))
    as (h' & evs & -> & _ & _ & _ & Hd); [done .. |].
  unfold after_events in *. cbn [settings tabLastActive host console] in *.
  exists h', ([EvQuery; EvLog LogForceStart] ++ evs).
  rewrite <- app_assoc. split; [done | done].
Qed.

(** X17: what [handleMessage] answers.  ["getSettings"] gives the settings in
    force and an unknown type gives [undefined]; both leave everything but
    the console as it was.  ["getStats"] gives counts with
    [total = active + discarded] and changes neither settings, activity map,
    store nor timer.  ["discardNow"] answers with the number of discard calls
    that resolved, made on the tabs that [shouldExclude] lets through, and
    changes neither settings, activity map, store nor timer. *)
Theorem handleMessage_replies (message : Message) (x : Extension Host Store) :
  let r := handleMessage message x in
  let x0 := write (NoteMessage (msg_type message)) x in
  (msg_type message = "getSettings"%string ->
     r = (Some (ReplySettings (x_settings x)), x0))
  /\ (msg_type message <> "getSettings"%string ->
      msg_type message <> "saveSettings"%string ->
      msg_type message <> "getStats"%string ->
      msg_type message <> "discardNow"%string ->
      r = (Some ReplyUndefined, x0))
  /\ (msg_type message = "getStats"%string ->
      exists st, fst r = Some (ReplyStats st)
        /\ stats_total st = stats_active st + stats_discarded st
        /\ stats_active st = pool (tabs_query (x_host x))
        /\ x_settings (snd r) = x_settings x
        /\ x_tabLastActive (snd r) = x_tabLastActive x
        /\ x_store (snd r) = x_store x
        /\ x_timers (snd r) = x_timers x)
  /\ (msg_type message = "discardNow"%string ->
      fst r = Some (ReplyDiscarded
                      (successes (engine_events (entries_since x0 (snd r)))))
      /\ map fst (discards (engine_events (entries_since x0 (snd r))))
         = map tab_id (candidates (x_settings x) (tabs_query (x_host x)))
      /\ x_settings (snd r) = x_settings x
      /\ x_tabLastActive (snd r) = x_tabLastActive x
      /\ x_store (snd r) = x_store x
      /\ x_timers (snd r) = x_timers x).
Proof.
  cbv zeta. split; [| split; [| split]].
  - unfold handleMessage. by intros ->.
  - intros H1 H2 H3 H4. unfold handleMessage.
    apply String.eqb_neq in H1, H2, H3, H4. by rewrite H1, H2, H3, H4.
  - intros Ht. rewrite (handleMessage_getStats _ _ Ht). cbn [fst snd].
    set (x0 := write (NoteMessage "getStats") x).
    pose proof (engine_frame getStats x0) as (Hs & Hm & _ & Hst & Htm & _).
    cbv zeta in Hs, Hm, Hst, Htm.
    destruct (getStats_settings (world_of x0)) as (Hs' & Hm' & _).
    assert (Hfst : fst (engine getStats x0) = fst (getStats (world_of x0))).
    { unfold engine. by destruct (getStats (world_of x0)). }
    eexists. split; [reflexivity |].
    rewrite Hfst, Hs, Hm, Hst, Htm, Hs', Hm'.
    unfold getStats, query, bind, emit, read_settings, ret, pool.
    cbn [fst stats_total stats_active stats_discarded
         settings tabLastActive host console world_of].
    pose proof (List.filter_length (fun t => tab_discarded t)
                  (tabs_query (x_host x))) as Hlen. cbn beta in Hlen.
    subst x0. unfold world_of, write. xproj.
    repeat split; try done; lia.
  - intros Ht. rewrite (handleMessage_discardNow _ _ Ht). cbn [fst snd].
    rewrite Ht.
    set (x0 := write (NoteMessage "discardNow") x).
    pose proof (engine_frame forceDiscardInactiveTabs x0)
      as (Hs & Hm & _ & Hst & Htm & _ & _ & Hc).
    cbv zeta in Hs, Hm, Hst, Htm, Hc.
    assert (Hfst : fst (engine forceDiscardInactiveTabs x0)
                   = fst (forceDiscardInactiveTabs (world_of x0))).
    { unfold engine. by destruct (forceDiscardInactiveTabs (world_of x0)). }
    rewrite Hfst, Hs, Hm, Hst, Htm.
    rewrite (entries_since_app x0 _ _ Hc), engine_events_Engine.
    destruct (force_run (world_of x0)) as (h' & evs & -> & Hd).
    by cbn [fst snd settings tabLastActive host console world_of app] in *.
Qed.

Lemma write_console (n : note) (x : Extension Host Store) :
  x_console (write n x) = x_console x ++ [Note n].
Proof. done. Qed.

Lemma startCheckInterval_console (x : Extension Host Store) :
  x_console (startCheckInterval x)
  = x_console x ++ [Note (NoteIntervalSet (checkInterval (x_settings x)))].
Proof. done. Qed.

Lemma initializeTabTracking_run (now : Z) (w : World Host) :
  exists m' evs,
    initializeTabTracking now w
      = (tt, mkWorld (settings w) m' (host w) (console w ++ evs))
    /\ discards evs = []
    /\ (forall t, In t (tabs_query (host w)) -> m' !! tab_id t = Some now).
Proof.
  unfold initializeTabTracking, query, bind, emit.
  cbn [settings tabLastActive host console].
  edestruct (track_all_seeds now (tabs_query (host w))
               (mkWorld (settings w) (tabLastActive w) (host w)
                  (console w ++ [EvQuery]))) as (m' & evs & -> & Hd & _ & Hin).
  cbn [settings tabLastActive host console].
  exists m', ([EvQuery] ++ evs). rewrite app_assoc. by repeat split.
Qed.

Lemma init_facts (now : Z) (x : Extension Host Store) :
  let x' := init now x in
  x_listening x' = true
  /\ (forall t, In t (tabs_query (x_host x)) ->
        x_tabLastActive x' !! tab_id t = Some now)
  /\ x_settings x'
     = match storage_get (x_store x) with
       | Some (Some stored) => spread DEFAULT_SETTINGS stored
       | _ => x_settings x
       end
  /\ x_host x' = x_host x
  /\ x_store x' = x_store x
  /\ discards (engine_events (entries_since x x')) = [].
Proof.
  cbv zeta. unfold init. cbv zeta.
  (* the state after the settings were loaded *)
  set (x3 := write (NoteSettingsLoaded (x_settings (loadSettings (write NoteStarting x))))
               (loadSettings (write NoteStarting x))).
  assert (Hx3 : x_host x3 = x_host x /\ x_store x3 = x_store x
                /\ x_settings x3
                   = match storage_get (x_store x) with
                     | Some (Some stored) => spread DEFAULT_SETTINGS stored
                     | _ => x_settings x
                     end
                /\ exists es, x_console x3 = x_console x ++ es
                              /\ engine_events es = []).
  { subst x3. unfold loadSettings.
    change (x_store (write NoteStarting x)) with (x_store x).
    destruct (storage_get (x_store x)) as [[stored |] |];
      (split; [done |]; split; [done |]; split; [done |]);
      eexists; (split; [unfold write, set_settings; xproj;
                        rewrite <- ?app_assoc; reflexivity | done]). }
  destruct Hx3 as (Hh & Hst & Hs & es & Hc & Hes).
  (* the state after the tabs were seeded *)
  set (x4 := snd (engine (initializeTabTracking now) x3)).
  assert (Hx4 : x_settings x4 = x_settings x3 /\ x_host x4 = x_host x3
                /\ x_store x4 = x_store x3
                /\ (forall t, In t (tabs_query (x_host x3)) ->
                      x_tabLastActive x4 !! tab_id t = Some now)
                /\ exists evs, x_console x4 = x_console x3 ++ map Engine evs
                               /\ discards evs = []).
  { pose proof (engine_frame (initializeTabTracking now) x3)
      as (E1 & E2 & E3 & E4 & _ & _ & _ & E8).
    fold x4 in E1, E2, E3, E4, E8.
    destruct (initializeTabTracking_run now (world_of x3))
      as (m' & evs & Hrun & Hd & Hseed).
    rewrite Hrun in E1, E2, E3, E8.
    cbn [snd settings tabLastActive host console world_of app] in *.
    repeat split; try done.
    - intros t Hin. rewrite E2. by apply Hseed.
    - by exists evs. }
  destruct Hx4 as (Hs4 & Hh4 & Hst4 & Hseed & evs & Hc4 & Hd).
  clearbody x4 x3.
  split; [done |].
  split; [intros t Hin; apply Hseed; by rewrite Hh |].
  split; [by rewrite <- Hs, <- Hs4 |].
  split; [by rewrite <- Hh, <- Hh4 |]. split; [by rewrite <- Hst, <- Hst4 |].
  match goal with
  | |- context [entries_since x ?final] =>
      assert (exists ns, x_console final = x_console x4 ++ ns
                         /\ engine_events ns = []) as (ns & Hcf & Hns)
  end.
  { eexists. split.
    - rewrite !write_console, startCheckInterval_console, write_console.
      change (x_console (setupListeners ?y)) with (x_console y).
      rewrite write_console, <- !app_assoc. reflexivity.
    - reflexivity. }
  rewrite (entries_since_app x _ (es ++ map Engine evs ++ ns)).
  2: { rewrite Hcf, Hc4, Hc. by rewrite <- !app_assoc. }
  unfold engine_events in *. rewrite !omap_app, Hes, Hns.
  cbn [app]. rewrite app_nil_r.
  fold (engine_events (map Engine evs)). by rewrite engine_events_Engine.
Qed.

(** X18: after [init] the listeners are registered, every tab of the
    enumeration has the reading of the clock as its record, the settings
    are the defaults overridden by the stored object (or, when the store
    rejects or holds nothing, the settings as they were, which are the
    defaults at start), and no discard call was made.  Host and store are
    as before. *)
Theorem init_tracks_every_tab (now : Z) (x : Extension Host Store) :
  let x' := init now x in
  x_listening x' = true
  /\ (forall t, In t (tabs_query (x_host x)) ->
        x_tabLastActive x' !! tab_id t = Some now)
  /\ x_settings x'
     = match storage_get (x_store x) with
       | Some (Some stored) => spread DEFAULT_SETTINGS stored
       | _ => x_settings x
       end
  /\ x_host x' = x_host x
  /\ x_store x' = x_store x
  /\ discards (engine_events (entries_since x x')) = [].
Proof. apply init_facts. Qed.

Lemma tick_discards_enumerated (now : Z) (x : Extension Host Store) (id : Z)
    (ok : bool) :
  In (id, ok) (discards (engine_events (entries_since x (tick now x)))) ->
  exists tab, In tab (tabs_query (x_host x)) /\ tab_id tab = id.
Proof.
  destruct (scan_facts now (world_of x))
    as (c & m' & h' & evs & Hr & F1 & _).
  unfold tick, engine. rewrite Hr. unfold world_of in *. xproj. cbn [app] in *.
  erewrite entries_since_app; [| xproj; reflexivity].
  rewrite engine_events_Engine. intros Hin.
  assert (Hid : In id (map tab_id (candidates (x_settings x) (tabs_query (x_host x))))).
  { apply list_elem_of_In. eapply elem_of_sublist; [| exact F1].
    apply list_elem_of_In. apply in_map_iff. by exists (id, ok). }
  apply in_map_iff in Hid as (tab & <- & Hc).
  apply candidates_spec in Hc as [Hin' _]. by exists tab.
Qed.

(** X19: a tick that comes after [init], before any other event, at a time
    no more than the timeout after the start (the start not being at time
    0), makes no discard call at all, whatever the activity map held before
    the start. *)
Theorem no_discard_within_timeout_of_start (now now' : Z)
    (x : Extension Host Store) :
  now <> 0 ->
  now' - now <= inactiveTimeout (x_settings (init now x)) * 1000 ->
  discards (engine_events (entries_since (init now x) (tick now' (init now x))))
  = [].
Proof.
  intros Hnow Hle.
  destruct (init_facts now x) as (_ & Hseed & _ & Hhost & _).
  cbv zeta in Hseed, Hhost.
  destruct (discards _) as [| [id ok] rest] eqn:Hd; [done |].
  assert (Hin : In (id, ok)
            (discards (engine_events
               (entries_since (init now x) (tick now' (init now x))))))
    by (rewrite Hd; by left).
  destruct (tick_discards_enumerated _ _ _ _ Hin) as (tab & Htab & <-).
  rewrite Hhost in Htab.
  destruct (tick_spares now' (init now x) (tab_id tab) now (Hseed tab Htab) Hnow Hle)
    as [_ Hno].
  by destruct (Hno ok).
Qed.

End BackgroundProperties.

(** ** The further properties at work on the test data *)

Lemma scan_discards_only_candidates_witness :
  In (2, true)
    (discards (events_since world_A
       (snd (@checkAndDiscardInactiveTabs _ willing_host clock world_A))))
  /\ exists tab, In tab tabs_A /\ tab_id tab = 2 /\ tab_active tab = false.
Proof.
  assert (Hin : In (2, true)
    (discards (events_since world_A
       (snd (@checkAndDiscardInactiveTabs _ willing_host clock world_A)))))
    by (vm_compute; left; reflexivity).
  split; [exact Hin |].
  destruct (proj2 (@scan_discards_only_candidates _ willing_host clock world_A)
              2 true Hin) as (tab & Htab & Hid & Hact & _).
  exists tab. repeat split; assumption.
Defined.

Lemma scan_spares_fresh_tab_witness :
  tabLastActive world_recent !! 2 = Some (clock - 10000)
  /\ tabLastActive
       (snd (@checkAndDiscardInactiveTabs _ willing_host clock world_recent)) !! 2
     = Some (clock - 10000).
Proof.
  split; [reflexivity |].
  apply (@scan_spares_fresh_tab _ willing_host clock world_recent 2 (clock - 10000)).
  - reflexivity.
  - discriminate.
  - vm_compute. discriminate.
Defined.

Lemma scan_only_backdates_witness :
  exact_arithmetic clock (inactiveTimeout (settings world_zero))
    (tabLastActive world_zero)
  /\ tabLastActive world_zero !! 2 = Some 0
  /\ tabLastActive
       (snd (@checkAndDiscardInactiveTabs _ willing_host clock world_zero)) !! 2
     = Some (clock - 31000)
  /\ clock - (clock - 31000) > inactiveTimeout (settings world_zero) * 1000.
Proof.
  assert (Hexact : exact_arithmetic clock
                     (inactiveTimeout (settings world_zero))
                     (tabLastActive world_zero)).
  { unfold exact_arithmetic, exact_backdate, safe.
    split; [| split; [repeat split |]]; [vm_compute; discriminate .. |].
    unfold world_zero. cbn [tabLastActive].
    apply map_Forall_insert_2; [split; vm_compute; discriminate |].
    apply map_Forall_empty. }
  assert (Hafter : tabLastActive
       (snd (@checkAndDiscardInactiveTabs _ willing_host clock world_zero)) !! 2
     = Some (clock - 31000)) by (vm_compute; reflexivity).
  split; [exact Hexact |]. split; [reflexivity |]. split; [exact Hafter |].
  apply (proj2 (proj2 (@scan_only_backdates _ willing_host clock world_zero
                         Hexact)) 2 (clock - 31000) Hafter).
  - intros Hsame. vm_compute in Hsame. discriminate Hsame.
  - vm_compute. discriminate.
Defined.

Lemma scan_floor_at_pool_discards_nothing_witness :
  pool (@tabs_query _ willing_host (host world_B)) <= minTabs (settings world_B)
  /\ fst (@checkAndDiscardInactiveTabs _ willing_host clock world_B) = 0.
Proof.
  split; [vm_compute; discriminate |].
  apply (@scan_floor_at_pool_discards_nothing _ willing_host clock world_B).
  vm_compute. discriminate.
Defined.

Lemma scan_tracks_every_candidate_witness :
  enabled (settings world_untracked) = true
  /\ (In (EvLog (LogKeepingMinimum (minTabs (settings world_untracked))))
        (events_since world_untracked
           (snd (@checkAndDiscardInactiveTabs _ willing_host clock world_untracked)))
      \/ forall tab, In tab tabs_A ->
           shouldExclude (settings world_untracked) tab = false ->
           is_Some
             (tabLastActive
                (snd (@checkAndDiscardInactiveTabs _ willing_host clock
                        world_untracked)) !! tab_id tab)).
Proof.
  split; [reflexivity |].
  apply (@scan_tracks_every_candidate _ willing_host clock world_untracked).
  reflexivity.
Defined.

Lemma scan_discards_up_to_the_floor_witness :
  exact_arithmetic clock (inactiveTimeout (settings world_floor))
    (tabLastActive world_floor)
  /\ fst (@checkAndDiscardInactiveTabs _ willing_host clock world_floor) = 1
  /\ discards (events_since world_floor
       (snd (@checkAndDiscardInactiveTabs _ willing_host clock world_floor)))
     = [(2, true)].
Proof.
  assert (Hexact : exact_arithmetic clock
                     (inactiveTimeout (settings world_floor))
                     (tabLastActive world_floor)).
  { unfold exact_arithmetic, exact_backdate, safe.
    split; [| split; [repeat split |]]; [vm_compute; discriminate .. |].
    unfold world_floor, tracker_A. cbn [tabLastActive].
    repeat (apply map_Forall_insert_2; [split; vm_compute; discriminate |]).
    apply map_Forall_empty. }
  split; [exact Hexact |].
  apply (@scan_discards_up_to_the_floor _ willing_host clock world_floor).
  - exact Hexact.
  - intros id h. reflexivity.
  - reflexivity.
  - intros t [<- | [<- | [<- | []]]]; vm_compute; reflexivity.
Defined.

Lemma recent_activity_protects_from_tick_witness :
  clock <> 0
  /\ (clock + 30000) - clock <= inactiveTimeout (x_settings script_start) * 1000
  /\ x_tabLastActive
       (tick (host_api := willing_host) (clock + 30000)
          (handleTabActivated clock 2 script_start)) !! 2
     = Some clock.
Proof.
  split; [discriminate |]. split; [vm_compute; discriminate |].
  apply (proj1 (recent_activity_protects_from_tick (host_api := willing_host)
                  script_start clock (clock + 30000)
                  ltac:(discriminate) ltac:(vm_compute; discriminate)) 2).
Defined.

Lemma handleTabRemoved_idempotent_witness :
  x_tabLastActive script_start !! 7 = None
  /\ x_tabLastActive (handleTabRemoved 7 script_start)
     = x_tabLastActive script_start.
Proof.
  split; [reflexivity |].
  apply (proj2 (handleTabRemoved_idempotent script_start 7)). reflexivity.
Defined.

Lemma timer_single_instance_witness :
  single_timer script_start
  /\ single_timer
       (run (host_api := willing_host) (store_api := memory_store)
          [AMessage (mkMessage "saveSettings" slower_checks);
           ATick 2 (clock + 60000);
           AStorageChanged (Some None) "local"]
          (init (host_api := willing_host) (store_api := memory_store)
             clock script_start)).
Proof.
  split; [reflexivity |].
  apply (timer_single_instance (host_api := willing_host)
           (store_api := memory_store) clock _ script_start).
  reflexivity.
Defined.

Lemma save_restarts_timer_witness :
  single_timer script_running
  /\ saveSettings_until_await (store_api := memory_store) slower_checks
       script_running = Some script_saving
  /\ ~ timer_in_step script_saving
  /\ x_timers
       (startCheckInterval
          (run (host_api := willing_host) (store_api := memory_store)
             [ATick 1 (clock + 5000)] script_saving))
     = {[2%positive := 60000]}.
Proof.
  assert (Hsingle : single_timer script_running)
    by (exists 5000; vm_compute; reflexivity).
  assert (Hsave : saveSettings_until_await (store_api := memory_store)
                    slower_checks script_running = Some script_saving)
    by (vm_compute; reflexivity).
  split; [exact Hsingle |]. split; [exact Hsave |].
  destruct (save_restarts_timer (host_api := willing_host)
              (store_api := memory_store) slower_checks
              [ATick 1 (clock + 5000)] script_running script_saving
              Hsingle Hsave)
    as ((_ & _ & _ & Hout) & (_ & _ & Htimers) & _).
  { unfold safe. vm_compute. discriminate. }
  split.
  - apply Hout.
    + exists 1%positive. split; vm_compute; reflexivity.
    + vm_compute. discriminate.
  - rewrite Htimers. vm_compute. reflexivity.
Defined.

Lemma failed_save_changes_memory_only_witness :
  storage_set (StorageAPI := broken_store)
    (as_patch (spread (x_settings script_storeless) slower_checks))
    (x_store script_storeless) = None
  /\ checkInterval
       (x_settings
          (snd (handleMessage (host_api := willing_host) (store_api := broken_store)
                  (mkMessage "saveSettings" slower_checks) script_storeless)))
     = 60
  /\ x_timers
       (snd (handleMessage (host_api := willing_host) (store_api := broken_store)
               (mkMessage "saveSettings" slower_checks) script_storeless))
     = x_timers script_storeless.
Proof.
  split; [reflexivity |].
  destruct (failed_save_changes_memory_only (host_api := willing_host)
              (store_api := broken_store) slower_checks script_storeless eq_refl)
    as (_ & Hs & _ & Ht & _).
  split; [by rewrite Hs | exact Ht].
Defined.

Lemma saved_settings_are_restored_witness :
  x_settings
    (loadSettings (store_api := memory_store)
       (mkExtension DEFAULT_SETTINGS ∅ tabs_A
          (x_store (snd (saveSettings (store_api := memory_store)
                           slower_checks script_start)))
          ∅ 1%positive None false []))
  = mkSettings true 30 60 false true 1.
Proof.
  apply (proj1 (proj2 (saved_settings_are_restored
                         (store_api := memory_store) slower_checks script_start
                         (snd (saveSettings (store_api := memory_store)
                                 slower_checks script_start))
                         ltac:(intros q st st' [= <-]; reflexivity)
                         eq_refl))).
  reflexivity.
Defined.

Lemma handleStorageChanged_resets_to_defaults_witness :
  "sync"%string <> "local"%string
  /\ handleStorageChanged (Some None) "sync" script_start = script_start.
Proof.
  split; [discriminate |].
  apply (proj1 (handleStorageChanged_resets_to_defaults
                  (Some None) "sync" script_start)).
  discriminate.
Defined.

Lemma handleMessage_replies_witness :
  fst (handleMessage (host_api := willing_host) (store_api := memory_store)
         (mkMessage "reload" no_patch) script_start)
  = Some ReplyUndefined.
Proof.
  rewrite (proj1 (proj2 (handleMessage_replies (host_api := willing_host)
                           (store_api := memory_store)
                           (mkMessage "reload" no_patch) script_start)));
    [reflexivity | discriminate ..].
Defined.

Lemma no_discard_within_timeout_of_start_witness :
  clock <> 0
  /\ discards
       (engine_events
          (entries_since
             (init (host_api := willing_host) (store_api := memory_store)
                clock script_start)
             (tick (host_api := willing_host) (clock + 30000)
                (init (host_api := willing_host) (store_api := memory_store)
                   clock script_start))))
     = [].
Proof.
  split; [discriminate |].
  apply (no_discard_within_timeout_of_start (host_api := willing_host)
           (store_api := memory_store) clock (clock + 30000) script_start).
  - discriminate.
  - vm_compute. discriminate.
Defined.

Lemma init_tracks_every_tab_witness :
  In (web_tab 2 false false) (tabs_query (HostAPI := willing_host) (x_host script_start))
  /\ x_tabLastActive
       (init (host_api := willing_host) (store_api := memory_store)
          clock script_start) !! 2
     = Some clock.
Proof.
  assert (Hin : In (web_tab 2 false false)
                  (tabs_query (HostAPI := willing_host) (x_host script_start)))
    by (right; left; reflexivity).
  split; [exact Hin |].
  exact (proj1 (proj2 (init_tracks_every_tab (host_api := willing_host)
                         (store_api := memory_store) clock script_start))
           (web_tab 2 false false) Hin).
Defined.
